(** * Feedback organiser: batch classification, label aggregation and export

    A shallow embedding of [src/index.tsx] (the batched version of the page
    script: the [analyzeButton] click handler, [normalizeLabel],
    [updateAndRenderStats], [renderResultsTable], the two export builders and
    the two edit handlers of the results table), followed by the properties
    the specification states about them.

    Conventions.
    - A JavaScript string is a sequence of UTF-16 code units.  It is modelled
      by [string], each [ascii] standing for the code unit of the same number,
      so the model covers exactly the strings whose code units are below 256
      (Latin-1).  On those strings [trim], [toLowerCase], [split], [join] and
      the regular expression [/^#+/] behave as written below.
    - A JavaScript [Map] iterates in insertion order and [set] on a present
      key keeps the key's position: it is modelled by an association list.
    - The page's mutable globals and the DOM nodes the handlers write are the
      fields of one [Session] record, threaded through every handler. *)

From Stdlib Require Import Strings.String Strings.Ascii Numbers.DecimalString.
From Stdlib Require Import Bool Arith PeanoNat ZArith Lia.
From Stdlib Require Import Sorting.Sorted Sorting.Permutation.
From Stdlib Require Import List.
Import ListNotations.

Open Scope string_scope.
Open Scope list_scope.

(* ================================================================== *)
(** ** JavaScript string primitives used by the page *)
(* ================================================================== *)

Module JS.

(** Line feed, the separator of [split('\n')] and [join('\n')]. *)
Definition LF : ascii := ascii_of_nat 10.

Definition nl : string := String LF EmptyString.

(** ECMAScript [WhiteSpace] and [LineTerminator] code units below 256:
    TAB, LF, VT, FF, CR, SP and NBSP. *)
Definition isWhiteSpace (c : ascii) : bool :=
  match N_of_ascii c with
  | 9%N | 10%N | 11%N | 12%N | 13%N | 32%N | 160%N => true
  | _ => false
  end.

Fixpoint trimStart (s : string) : string :=
  match s with
  | EmptyString => EmptyString
  | String c r => if isWhiteSpace c then trimStart r else s
  end.

Fixpoint trimEnd (s : string) : string :=
  match s with
  | EmptyString => EmptyString
  | String c r =>
      match trimEnd r with
      | EmptyString => if isWhiteSpace c then EmptyString else String c EmptyString
      | r' => String c r'
      end
  end.

(** [String.prototype.trim]. *)
Definition trim (s : string) : string := trimEnd (trimStart s).

(** Lower-case mapping of one code unit below 256: [A]-[Z] and the Latin-1
    capitals U+00C0..U+00DE (U+00D7, the multiplication sign, is not a
    letter) move up by 32; every other unit is its own image. *)
Definition lowerChar (c : ascii) : ascii :=
  let n := N_of_ascii c in
  if ((65 <=? n) && (n <=? 90))%N
     || ((192 <=? n) && (n <=? 222) && negb (n =? 215))%N
  then ascii_of_N (n + 32)
  else c.

(** [String.prototype.toLowerCase]. *)
Fixpoint toLowerCase (s : string) : string :=
  match s with
  | EmptyString => EmptyString
  | String c r => String (lowerChar c) (toLowerCase r)
  end.

(** [s.replace(/^#+/, '')]: the longest run of [#] at the start is removed. *)
Fixpoint replaceLeadingHashes (s : string) : string :=
  match s with
  | EmptyString => EmptyString
  | String c r => if Ascii.eqb c "#" then replaceLeadingHashes r else s
  end.

(** [s.split(sep)] for a one-unit separator: never empty, [""] gives [[""]]. *)
Fixpoint split (sep : ascii) (s : string) : list string :=
  match s with
  | EmptyString => [EmptyString]
  | String c r =>
      if Ascii.eqb c sep then EmptyString :: split sep r
      else match split sep r with
           | h :: t => String c h :: t
           | [] => [String c EmptyString]
           end
  end.

(** [Array.prototype.join]. *)
Fixpoint join (sep : string) (l : list string) : string :=
  match l with
  | [] => EmptyString
  | [x] => x
  | x :: r => x ++ sep ++ join sep r
  end.

(** [Array.prototype.slice(start, end)] for [0 <= start <= end]. *)
Definition slice {A : Type} (start end_ : nat) (l : list A) : list A :=
  firstn (end_ - start) (skipn start l).

(** Truthiness of a string: the empty string is the only falsy one. *)
Definition truthy (s : string) : bool :=
  match s with EmptyString => false | _ => true end.

(** Decimal rendering of a non-negative integer in a template literal. *)
Definition numberToString (n : nat) : string :=
  NilZero.string_of_uint (Nat.to_uint n).

Definition startsWithWhiteSpace (s : string) : bool :=
  match s with
  | EmptyString => false
  | String c _ => isWhiteSpace c
  end.

End JS.

(* ================================================================== *)
(** ** Label Normalizer *)
(* ================================================================== *)

(** [function normalizeLabel(label)]:
    [label.trim().toLowerCase().replace(/^#+/, '')]. *)
Definition normalizeLabel (label : string) : string :=
  JS.replaceLeadingHashes (JS.toLowerCase (JS.trim label)).

(* ================================================================== *)
(** ** Data model *)
(* ================================================================== *)

(** One element of [analysisResults]:
    [{ feedback: string; labels: string[]; isIncorrect?: boolean }].
    An absent [isIncorrect] is [None]. *)
Record LabeledFeedback : Type := mkLabeledFeedback {
  feedback : string;
  labels : list string;
  isIncorrect : option bool
}.

(** The argument of [ai.models.generateContent].  [responseMimeType] and
    [responseSchema] are the same constants in every call and are left out. *)
Record Request : Type := mkRequest {
  model : string;
  contents : string;
  systemInstruction : option string
}.

(** What one [await ai.models.generateContent(...)] followed by
    [JSON.parse(response.text)] can come to.  The response schema asks for an
    array of [{feedback, labels}] objects, and the elements of a parsed array
    are taken to be such objects, as the type of [analysisResults] has them;
    [ParsedOther] stands for any parsed value that is not an array, with the
    truth of [v && v.length > 0] (when it is true, [v.map] is not a function
    and the call of it throws). *)
Inductive Reply : Type :=
| Rejected
| Unparsable
| ParsedOther (positiveLength : bool)
| ParsedArray (items : list LabeledFeedback).

(** The external classification service during one run of the handler: the
    reply to the call of batch [i] with a given request. *)
Definition Service : Type := nat -> Request -> Reply.

(** A row of the rendered results table. *)
Record TableRow : Type := mkTableRow {
  rowFeedback : string;
  rowLabelsValue : string;
  rowChecked : bool;
  rowIncorrectClass : bool
}.

(** The content of [resultsTableContainer]. *)
Inductive TableView : Type :=
| NoTable
| ErrorParagraph
| Table (rows : list TableRow).

(** Rows of the three sheets. *)
Record CompiledRow : Type := mkCompiledRow {
  cFeedback : string;
  cLabels : string;
  cIncorrectAnalysis : string
}.

Record ExplodedRow : Type := mkExplodedRow {
  eFeedback : string;
  eSingleLabel : string;
  eIncorrectAnalysis : string
}.

Record CountRow : Type := mkCountRow {
  Label : string;
  Count : nat
}.

Inductive Sheet : Type :=
| CompiledSheet (rows : list CompiledRow)
| ExplodedSheet (rows : list ExplodedRow)
| CountsSheet (rows : list CountRow).

(** A workbook: its sheets in the order of [book_append_sheet]. *)
Definition Workbook : Type := list (string * Sheet).

(** The page state the handlers read and write. *)
Record Session : Type := mkSession {
  feedbackInput : string;
  systemPromptInput : string;
  analysisResults : list LabeledFeedback;
  statusMessage : string;
  statusError : bool;
  resultsTable : TableView;
  resultsHeaderHidden : bool;
  exportDisabled : bool;
  exportExplodedDisabled : bool;
  loadingSpinnerHidden : bool;
  analyzeDisabled : bool;
  labelCountsSummary : list (string * nat);
  labelCountsHidden : bool;
  calls : list Request;
  downloads : list (string * Workbook)
}.

Definition set_analysisResults (v : list LabeledFeedback) (s : Session) : Session :=
  mkSession (feedbackInput s) (systemPromptInput s) v (statusMessage s) (statusError s)
    (resultsTable s) (resultsHeaderHidden s) (exportDisabled s) (exportExplodedDisabled s)
    (loadingSpinnerHidden s) (analyzeDisabled s) (labelCountsSummary s) (labelCountsHidden s)
    (calls s) (downloads s).

Definition set_statusMessage (v : string) (s : Session) : Session :=
  mkSession (feedbackInput s) (systemPromptInput s) (analysisResults s) v (statusError s)
    (resultsTable s) (resultsHeaderHidden s) (exportDisabled s) (exportExplodedDisabled s)
    (loadingSpinnerHidden s) (analyzeDisabled s) (labelCountsSummary s) (labelCountsHidden s)
    (calls s) (downloads s).

Definition set_statusError (v : bool) (s : Session) : Session :=
  mkSession (feedbackInput s) (systemPromptInput s) (analysisResults s) (statusMessage s) v
    (resultsTable s) (resultsHeaderHidden s) (exportDisabled s) (exportExplodedDisabled s)
    (loadingSpinnerHidden s) (analyzeDisabled s) (labelCountsSummary s) (labelCountsHidden s)
    (calls s) (downloads s).

Definition set_resultsTable (v : TableView) (s : Session) : Session :=
  mkSession (feedbackInput s) (systemPromptInput s) (analysisResults s) (statusMessage s)
    (statusError s) v (resultsHeaderHidden s) (exportDisabled s) (exportExplodedDisabled s)
    (loadingSpinnerHidden s) (analyzeDisabled s) (labelCountsSummary s) (labelCountsHidden s)
    (calls s) (downloads s).

Definition set_resultsHeaderHidden (v : bool) (s : Session) : Session :=
  mkSession (feedbackInput s) (systemPromptInput s) (analysisResults s) (statusMessage s)
    (statusError s) (resultsTable s) v (exportDisabled s) (exportExplodedDisabled s)
    (loadingSpinnerHidden s) (analyzeDisabled s) (labelCountsSummary s) (labelCountsHidden s)
    (calls s) (downloads s).

Definition set_exportDisabled (v : bool) (s : Session) : Session :=
  mkSession (feedbackInput s) (systemPromptInput s) (analysisResults s) (statusMessage s)
    (statusError s) (resultsTable s) (resultsHeaderHidden s) v (exportExplodedDisabled s)
    (loadingSpinnerHidden s) (analyzeDisabled s) (labelCountsSummary s) (labelCountsHidden s)
    (calls s) (downloads s).

Definition set_exportExplodedDisabled (v : bool) (s : Session) : Session :=
  mkSession (feedbackInput s) (systemPromptInput s) (analysisResults s) (statusMessage s)
    (statusError s) (resultsTable s) (resultsHeaderHidden s) (exportDisabled s) v
    (loadingSpinnerHidden s) (analyzeDisabled s) (labelCountsSummary s) (labelCountsHidden s)
    (calls s) (downloads s).

Definition set_loadingSpinnerHidden (v : bool) (s : Session) : Session :=
  mkSession (feedbackInput s) (systemPromptInput s) (analysisResults s) (statusMessage s)
    (statusError s) (resultsTable s) (resultsHeaderHidden s) (exportDisabled s)
    (exportExplodedDisabled s) v (analyzeDisabled s) (labelCountsSummary s)
    (labelCountsHidden s) (calls s) (downloads s).

Definition set_analyzeDisabled (v : bool) (s : Session) : Session :=
  mkSession (feedbackInput s) (systemPromptInput s) (analysisResults s) (statusMessage s)
    (statusError s) (resultsTable s) (resultsHeaderHidden s) (exportDisabled s)
    (exportExplodedDisabled s) (loadingSpinnerHidden s) v (labelCountsSummary s)
    (labelCountsHidden s) (calls s) (downloads s).

Definition set_labelCountsSummary (v : list (string * nat)) (s : Session) : Session :=
  mkSession (feedbackInput s) (systemPromptInput s) (analysisResults s) (statusMessage s)
    (statusError s) (resultsTable s) (resultsHeaderHidden s) (exportDisabled s)
    (exportExplodedDisabled s) (loadingSpinnerHidden s) (analyzeDisabled s) v
    (labelCountsHidden s) (calls s) (downloads s).

Definition set_labelCountsHidden (v : bool) (s : Session) : Session :=
  mkSession (feedbackInput s) (systemPromptInput s) (analysisResults s) (statusMessage s)
    (statusError s) (resultsTable s) (resultsHeaderHidden s) (exportDisabled s)
    (exportExplodedDisabled s) (loadingSpinnerHidden s) (analyzeDisabled s)
    (labelCountsSummary s) v (calls s) (downloads s).

Definition set_calls (v : list Request) (s : Session) : Session :=
  mkSession (feedbackInput s) (systemPromptInput s) (analysisResults s) (statusMessage s)
    (statusError s) (resultsTable s) (resultsHeaderHidden s) (exportDisabled s)
    (exportExplodedDisabled s) (loadingSpinnerHidden s) (analyzeDisabled s)
    (labelCountsSummary s) (labelCountsHidden s) v (downloads s).

Definition set_downloads (v : list (string * Workbook)) (s : Session) : Session :=
  mkSession (feedbackInput s) (systemPromptInput s) (analysisResults s) (statusMessage s)
    (statusError s) (resultsTable s) (resultsHeaderHidden s) (exportDisabled s)
    (exportExplodedDisabled s) (loadingSpinnerHidden s) (analyzeDisabled s)
    (labelCountsSummary s) (labelCountsHidden s) (calls s) v.

(** How a [try] block ends: normally, or by a thrown exception; either way
    with the page state reached so far. *)
Inductive Completion : Type :=
| Normal (s : Session)
| Thrown (s : Session).

(* ================================================================== *)
(** ** [Map<string, number>] and [Array.prototype.sort] *)
(* ================================================================== *)

(** [m.get(k)]: [None] is [undefined]. *)
Fixpoint Map_get (m : list (string * nat)) (k : string) : option nat :=
  match m with
  | [] => None
  | (k', v) :: r => if String.eqb k' k then Some v else Map_get r k
  end.

(** [m.set(k, v)]: a present key keeps its place, a new key goes last. *)
Fixpoint Map_set (m : list (string * nat)) (k : string) (v : nat)
  : list (string * nat) :=
  match m with
  | [] => [(k, v)]
  | (k', v') :: r =>
      if String.eqb k' k then (k, v) :: r else (k', v') :: Map_set r k v
  end.

(** [a.sort(cmp)] for a comparator that is a total preorder: the sort is
    stable (ECMAScript 2019), so the result is the one a stable insertion
    sort gives.  [insertSorted] puts [x], which stood before every element of
    [l], in front of the first element that [cmp] does not order strictly
    before it. *)
Fixpoint insertSorted {A : Type} (cmp : A -> A -> Z) (x : A) (l : list A)
  : list A :=
  match l with
  | [] => [x]
  | y :: r =>
      if (cmp y x <? 0)%Z then y :: insertSorted cmp x r else x :: y :: r
  end.

Fixpoint Array_sort {A : Type} (cmp : A -> A -> Z) (l : list A) : list A :=
  match l with
  | [] => []
  | x :: r => insertSorted cmp x (Array_sort cmp r)
  end.

(** The order a sorted array shows between neighbours [a], [b]: the
    comparator does not put [b] strictly before [a]. *)
Definition notAfter {A : Type} (cmp : A -> A -> Z) (a b : A) : Prop :=
  (0 <= cmp b a)%Z.

(* ================================================================== *)
(** ** Aggregator *)
(* ================================================================== *)

(** [labelCounts.set(k, (labelCounts.get(k) || 0) + 1)]: [undefined] and
    [0] are the falsy values [||] replaces. *)
Definition countNormalized (labelCounts : list (string * nat)) (k : string)
  : list (string * nat) :=
  Map_set labelCounts k
    (match Map_get labelCounts k with
     | Some n => if Nat.eqb n 0 then 0 else n
     | None => 0
     end + 1).

(** The body of the inner [forEach] of both counting loops:
    [const normalizedLabel = normalizeLabel(label);
     if (normalizedLabel) labelCounts.set(normalizedLabel, ...)]. *)
Definition countLabel (labelCounts : list (string * nat)) (label : string)
  : list (string * nat) :=
  let normalizedLabel := normalizeLabel label in
  if JS.truthy normalizedLabel then countNormalized labelCounts normalizedLabel
  else labelCounts.

(** The two nested [forEach] loops, from an empty map. *)
Definition countLabels (records : list LabeledFeedback) : list (string * nat) :=
  fold_left (fun m item => fold_left countLabel (labels item) m) records [].

(** The comparator [(a, b) => b[1] - a[1]]. *)
Definition byCountDesc (a b : string * nat) : Z :=
  (Z.of_nat (snd b) - Z.of_nat (snd a))%Z.

(** The comparator [(a, b) => b.Count - a.Count]. *)
Definition byCountRowDesc (a b : CountRow) : Z :=
  (Z.of_nat (Count b) - Z.of_nat (Count a))%Z.

(** [[...labelCounts.entries()].sort((a, b) => b[1] - a[1])] *)
Definition sortedLabels (records : list LabeledFeedback) : list (string * nat) :=
  Array_sort byCountDesc (countLabels records).

(** [Array.from(labelCounts.entries())
       .map(([label, count]) => ({ Label: label, Count: count }))
       .sort((a, b) => b.Count - a.Count)] *)
Definition countsData (labeledFeedback : list LabeledFeedback) : list CountRow :=
  Array_sort byCountRowDesc
    (map (fun e => mkCountRow (fst e) (snd e)) (countLabels labeledFeedback)).

(** [function updateAndRenderStats()] *)
Definition updateAndRenderStats (st : Session) : Session :=
  let labelCounts := countLabels (analysisResults st) in
  let st1 := set_labelCountsSummary [] st in
  if Nat.eqb (length labelCounts) 0 then set_labelCountsHidden true st1
  else
    set_labelCountsSummary (sortedLabels (analysisResults st))
      (set_labelCountsHidden false st1).

(* ================================================================== *)
(** ** Results table and its edit handlers *)
(* ================================================================== *)

(** [!!item.isIncorrect] *)
Definition flagged (item : LabeledFeedback) : bool :=
  match isIncorrect item with
  | Some true => true
  | _ => false
  end.

Definition tableRow (item : LabeledFeedback) : TableRow :=
  mkTableRow (feedback item) (JS.join ", " (labels item)) (flagged item)
    (flagged item).

(** [function renderResultsTable()] *)
Definition renderResultsTable (st : Session) : Session :=
  let st1 := set_resultsTable NoTable st in
  if Nat.eqb (length (analysisResults st)) 0 then st1
  else set_resultsTable (Table (map tableRow (analysisResults st))) st1.

(** [a[i] = f(a[i])] on an array; nothing happens out of range (there the
    handlers below throw before they change anything). *)
Fixpoint updateAt {A : Type} (i : nat) (f : A -> A) (l : list A) : list A :=
  match l, i with
  | [], _ => []
  | x :: r, 0 => f x :: r
  | x :: r, S j => x :: updateAt j f r
  end.

Definition COMMA : ascii := ascii_of_nat 44.

(** The [change] handler of the labels input of row [updatedIndex], the
    input holding [value]:
    [analysisResults[updatedIndex].labels =
       value.split(',').map(l => l.trim()).filter(Boolean);
     updateAndRenderStats()]. *)
Definition labelsChange (updatedIndex : nat) (value : string) (st : Session)
  : Session :=
  if Nat.ltb updatedIndex (length (analysisResults st)) then
    let updatedLabels := filter JS.truthy (map JS.trim (JS.split COMMA value)) in
    let results :=
      updateAt updatedIndex
        (fun item => mkLabeledFeedback (feedback item) updatedLabels (isIncorrect item))
        (analysisResults st) in
    let rows :=
      match resultsTable st with
      | Table rows =>
          Table (updateAt updatedIndex
                   (fun r => mkTableRow (rowFeedback r) value (rowChecked r)
                               (rowIncorrectClass r)) rows)
      | v => v
      end in
    updateAndRenderStats (set_resultsTable rows (set_analysisResults results st))
  else st.

(** The [change] handler of the checkbox of row [updatedIndex]:
    [analysisResults[updatedIndex].isIncorrect = target.checked], and the
    row's [incorrect-row] class follows. *)
Definition incorrectChange (updatedIndex : nat) (checked : bool) (st : Session)
  : Session :=
  if Nat.ltb updatedIndex (length (analysisResults st)) then
    let results :=
      updateAt updatedIndex
        (fun item => mkLabeledFeedback (feedback item) (labels item) (Some checked))
        (analysisResults st) in
    let rows :=
      match resultsTable st with
      | Table rows =>
          Table (updateAt updatedIndex
                   (fun r => mkTableRow (rowFeedback r) (rowLabelsValue r) checked
                               checked) rows)
      | v => v
      end in
    set_resultsTable rows (set_analysisResults results st)
  else st.

(* ================================================================== *)
(** ** Batch Classifier: the [analyzeButton] click handler *)
(* ================================================================== *)

Definition BATCH_SIZE : nat := 250.

(** [Math.ceil(n / batchSize)] on array lengths. *)
Definition ceilDiv (n batchSize : nat) : nat :=
  n / batchSize + (if Nat.eqb (n mod batchSize) 0 then 0 else 1).

(** The template literal of the prompt, up to [${batchText}]. *)
Definition promptHeader : string :=
  "Analyze each line of the following customer feedback individually. Return a JSON array where each object corresponds to a single line of feedback from the input. Do not skip, merge, or alter any lines. Each object must contain two keys: 'feedback' (the original, unmodified text of the feedback line) and 'labels' (an array of relevant string labels, e.g., 'Bug Report', 'Feature Request')."
  ++ JS.nl ++ JS.nl ++ "---FEEDBACK---" ++ JS.nl.

(** [modelConfig.systemInstruction] is set only for a truthy prompt. *)
Definition systemInstructionOf (systemPrompt : string) : option string :=
  if JS.truthy systemPrompt then Some systemPrompt else None.

Definition requestFor (systemPrompt batchText : string) : Request :=
  mkRequest "gemini-2.5-flash" (promptHeader ++ batchText)
    (systemInstructionOf systemPrompt).

(** [batchLines] of iteration [i]:
    [feedbackLines.slice(i * BATCH_SIZE, i * BATCH_SIZE + BATCH_SIZE)]. *)
Definition batchLinesAt (batchSize : nat) (feedbackLines : list string) (i : nat)
  : list string :=
  let batchStart := i * batchSize in
  let batchEnd := batchStart + batchSize in
  JS.slice batchStart batchEnd feedbackLines.

(** [{ ...item, isIncorrect: false }] *)
Definition tagItem (item : LabeledFeedback) : LabeledFeedback :=
  mkLabeledFeedback (feedback item) (labels item) (Some false).

Definition processingMessage (i totalBatches : nat) : string :=
  "Processing batch " ++ JS.numberToString (i + 1) ++ " of "
  ++ JS.numberToString totalBatches ++ "...".

(** One iteration of the [for] loop. *)
Definition batchStep (ai : Service) (batchSize totalBatches : nat)
  (feedbackLines : list string) (systemPrompt : string) (i : nat) (st : Session)
  : Completion :=
  let batchLines := batchLinesAt batchSize feedbackLines i in
  let batchText := JS.join JS.nl batchLines in
  let st1 := set_statusMessage (processingMessage i totalBatches) st in
  let request := requestFor systemPrompt batchText in
  let st2 := set_calls (calls st1 ++ [request]) st1 in
  match ai i request with
  | Rejected => Thrown st2
  | Unparsable => Thrown st2
  | ParsedOther true => Thrown st2
  | ParsedOther false => Normal st2
  | ParsedArray labeledFeedbackBatch =>
      if Nat.ltb 0 (length labeledFeedbackBatch) then
        Normal (set_analysisResults
                  (analysisResults st2 ++ map tagItem labeledFeedbackBatch) st2)
      else Normal st2
  end.

(** [for (let i = 0; i < totalBatches; i++) { ... }], entered at [i] with
    [remaining = totalBatches - i] iterations to go. *)
Fixpoint batchLoop (ai : Service) (batchSize totalBatches : nat)
  (feedbackLines : list string) (systemPrompt : string)
  (remaining i : nat) (st : Session) : Completion :=
  match remaining with
  | 0 => Normal st
  | S k =>
      match batchStep ai batchSize totalBatches feedbackLines systemPrompt i st with
      | Normal st' =>
          batchLoop ai batchSize totalBatches feedbackLines systemPrompt k (S i) st'
      | Thrown st' => Thrown st'
      end
  end.

(** [feedbackText.split('\n').filter(line => line.trim() !== '')] *)
Definition feedbackLinesOf (feedbackText : string) : list string :=
  filter (fun line => JS.truthy (JS.trim line)) (JS.split JS.LF feedbackText).

(** The block commented [UI Reset]. *)
Definition uiReset (st : Session) : Session :=
  set_analysisResults []
    (set_labelCountsHidden true
      (set_labelCountsSummary []
        (set_statusError false
          (set_statusMessage ""
            (set_analyzeDisabled true
              (set_loadingSpinnerHidden false
                (set_exportExplodedDisabled true
                  (set_exportDisabled true
                    (set_resultsHeaderHidden true
                      (set_resultsTable NoTable st)))))))))).

Definition completeMessage (n : nat) : string :=
  "Analysis complete! " ++ JS.numberToString n ++ " items processed.".

Definition noResultsMessage : string :=
  "No feedback could be analyzed. Please check your input.".

Definition errorMessage : string :=
  "An error occurred during analysis. Please try again.".

(** The rest of the [try] block once the loop has ended normally. *)
Definition afterLoop (st : Session) : Session :=
  if Nat.ltb 0 (length (analysisResults st)) then
    set_exportExplodedDisabled false
      (set_exportDisabled false
        (set_resultsHeaderHidden false
          (updateAndRenderStats
            (renderResultsTable
              (set_statusMessage (completeMessage (length (analysisResults st))) st)))))
  else set_statusMessage noResultsMessage st.

(** The [catch] block. *)
Definition onError (st : Session) : Session :=
  set_resultsTable ErrorParagraph
    (set_statusError true (set_statusMessage errorMessage st)).

(** [const checkInputs = () => ...] *)
Definition checkInputs (st : Session) : Session :=
  set_analyzeDisabled (negb (JS.truthy (JS.trim (feedbackInput st)))) st.

(** The [finally] block. *)
Definition onFinally (st : Session) : Session :=
  checkInputs (set_loadingSpinnerHidden true st).

(** The handler for a given batch size. *)
Definition analyzeWith (batchSize : nat) (ai : Service) (st : Session) : Session :=
  let feedbackText := JS.trim (feedbackInput st) in
  if negb (JS.truthy feedbackText) then st
  else
    let st0 := uiReset st in
    let feedbackLines := feedbackLinesOf feedbackText in
    let totalBatches := ceilDiv (length feedbackLines) batchSize in
    let systemPrompt := JS.trim (systemPromptInput st) in
    onFinally
      match batchLoop ai batchSize totalBatches feedbackLines systemPrompt
              totalBatches 0 st0 with
      | Normal st' => afterLoop st'
      | Thrown st' => onError st'
      end.

(** [analyzeButton.addEventListener('click', async () => ...)] *)
Definition analyzeClick (ai : Service) (st : Session) : Session :=
  analyzeWith BATCH_SIZE ai st.

(* ================================================================== *)
(** ** Export Builder *)
(* ================================================================== *)

(** [item.isIncorrect ? 'Yes' : 'No'] *)
Definition yesNo (item : LabeledFeedback) : string :=
  if flagged item then "Yes" else "No".

Definition compiledRow (item : LabeledFeedback) : CompiledRow :=
  mkCompiledRow (feedback item) (JS.join ", " (labels item)) (yesNo item).

(** [labeledFeedback.map(item => ({ Feedback, Labels, 'Incorrect Analysis' }))] *)
Definition compiledData (labeledFeedback : list LabeledFeedback) : list CompiledRow :=
  map compiledRow labeledFeedback.

(** The callback of the outer [forEach] that fills [explodedData]. *)
Definition explodeItem (explodedData : list ExplodedRow) (item : LabeledFeedback)
  : list ExplodedRow :=
  if Nat.eqb (length (labels item)) 0 then
    explodedData ++ [mkExplodedRow (feedback item) "" (yesNo item)]
  else
    fold_left
      (fun rows label => rows ++ [mkExplodedRow (feedback item) label (yesNo item)])
      (labels item) explodedData.

Definition explodedData (labeledFeedback : list LabeledFeedback) : list ExplodedRow :=
  fold_left explodeItem labeledFeedback [].

(** [function generateAndDownloadExcel(labeledFeedback)] *)
Definition generateAndDownloadExcel (labeledFeedback : list LabeledFeedback)
  (st : Session) : Session :=
  let wb := [("Feedback Analysis", CompiledSheet (compiledData labeledFeedback))] in
  set_downloads (downloads st ++ [("feedback_analysis_results.xlsx", wb)]) st.

(** [function generateAndDownloadExplodedExcel(labeledFeedback)] *)
Definition generateAndDownloadExplodedExcel (labeledFeedback : list LabeledFeedback)
  (st : Session) : Session :=
  let wb :=
    [("Exploded by Label", ExplodedSheet (explodedData labeledFeedback));
     ("Compiled View", CompiledSheet (compiledData labeledFeedback));
     ("Label Counts", CountsSheet (countsData labeledFeedback))] in
  set_downloads (downloads st ++ [("feedback_analysis_detailed_export.xlsx", wb)]) st.

(** The [click] handlers of the two export buttons. *)
Definition exportClick (st : Session) : Session :=
  if Nat.ltb 0 (length (analysisResults st)) then
    generateAndDownloadExcel (analysisResults st) st
  else st.

Definition exportExplodedClick (st : Session) : Session :=
  if Nat.ltb 0 (length (analysisResults st)) then
    generateAndDownloadExplodedExcel (analysisResults st) st
  else st.

(* ================================================================== *)
(** ** Notions the properties are stated with *)
(* ================================================================== *)

(** The chunks the loop visits, in order: one [batchLines] per iteration. *)
Definition batches (batchSize : nat) (feedbackLines : list string)
  : list (list string) :=
  map (batchLinesAt batchSize feedbackLines)
    (seq 0 (ceilDiv (length feedbackLines) batchSize)).

(** Every label of every record, normalized, in scan order (records in
    order, each record's labels in order), the empty ones dropped. *)
Definition countedLabels (records : list LabeledFeedback) : list string :=
  flat_map (fun item => filter JS.truthy (map normalizeLabel (labels item)))
    records.

(** Every label of every record, in scan order. *)
Definition allLabels (records : list LabeledFeedback) : list string :=
  flat_map labels records.

(** The distinct elements of a list in order of first occurrence. *)
Fixpoint firstSeen (l : list string) : list string :=
  match l with
  | [] => []
  | x :: r => x :: filter (fun y => negb (String.eqb y x)) (firstSeen r)
  end.

(** Number of occurrences of [x] in [l]. *)
Definition occurrences (x : string) (l : list string) : nat :=
  length (filter (String.eqb x) l).

(** Membership test on strings. *)
Definition mem (x : string) (l : list string) : bool :=
  existsb (String.eqb x) l.

(** What a count map should hold after the labels [l] were counted one by
    one: each distinct label once, in order of first occurrence, with its
    number of occurrences. *)
Definition tally (l : list string) : list (string * nat) :=
  map (fun x => (x, occurrences x l)) (firstSeen l).

Definition sumCounts (entries : list (string * nat)) : nat :=
  fold_right (fun e acc => snd e + acc) 0 entries.

Definition sumCountRows (rows : list CountRow) : nat :=
  fold_right (fun r acc => Count r + acc) 0 rows.

(** [sum(max(1, len(r.labels)) for r in records)] *)
Definition explodedRowCount (records : list LabeledFeedback) : nat :=
  fold_right (fun item acc => Nat.max 1 (length (labels item)) + acc) 0 records.

(** The rows one record contributes to the exploded view. *)
Definition explodedRowsOf (item : LabeledFeedback) : list ExplodedRow :=
  match labels item with
  | [] => [mkExplodedRow (feedback item) "" (yesNo item)]
  | ls => map (fun label => mkExplodedRow (feedback item) label (yesNo item)) ls
  end.

(** A reply the loop body gets through without throwing. *)
Definition succeeds (r : Reply) : bool :=
  match r with
  | Rejected | Unparsable | ParsedOther true => false
  | ParsedOther false | ParsedArray _ => true
  end.

(** The records a reply adds to [analysisResults]. *)
Definition replyItems (r : Reply) : list LabeledFeedback :=
  match r with
  | ParsedArray items => map tagItem items
  | _ => []
  end.

(** The request of batch [i]. *)
Definition requestAt (batchSize : nat) (feedbackLines : list string)
  (systemPrompt : string) (i : nat) : Request :=
  requestFor systemPrompt (JS.join JS.nl (batchLinesAt batchSize feedbackLines i)).

(** The reply the service gives to batch [i] of a run. *)
Definition replyAt (ai : Service) (batchSize : nat) (feedbackLines : list string)
  (systemPrompt : string) (i : nat) : Reply :=
  ai i (requestAt batchSize feedbackLines systemPrompt i).

(** How many batches, from batch [i] on and at most [remaining], get a
    successful reply before the first failing one. *)
Fixpoint leadingSuccesses (reply : nat -> Reply) (remaining i : nat) : nat :=
  match remaining with
  | 0 => 0
  | S k => if succeeds (reply i) then S (leadingSuccesses reply k (S i)) else 0
  end.

Definition completionState (c : Completion) : Session :=
  match c with Normal s => s | Thrown s => s end.

Definition isNormal (c : Completion) : bool :=
  match c with Normal _ => true | Thrown _ => false end.

(** Every batch of a run of [total] batches gets a successful reply. *)
Definition allSucceed (reply : nat -> Reply) (total : nat) : Prop :=
  forall i, i < total -> succeeds (reply i) = true.

(** Batch [j] is the first whose call fails. *)
Definition firstFailureAt (reply : nat -> Reply) (total j : nat) : Prop :=
  j < total /\ succeeds (reply j) = false
  /\ forall i, i < j -> succeeds (reply i) = true.

(** [st'] differs from [st] at most in [analysisResults], [statusMessage]
    and the log of calls: what the loop body may write. *)
Definition loopFrame (st st' : Session) : Prop :=
  feedbackInput st' = feedbackInput st
  /\ systemPromptInput st' = systemPromptInput st
  /\ statusError st' = statusError st
  /\ resultsTable st' = resultsTable st
  /\ resultsHeaderHidden st' = resultsHeaderHidden st
  /\ exportDisabled st' = exportDisabled st
  /\ exportExplodedDisabled st' = exportExplodedDisabled st
  /\ loadingSpinnerHidden st' = loadingSpinnerHidden st
  /\ analyzeDisabled st' = analyzeDisabled st
  /\ labelCountsSummary st' = labelCountsSummary st
  /\ labelCountsHidden st' = labelCountsHidden st
  /\ downloads st' = downloads st.

(** The lines, the system prompt, the number of batches and the replies of
    the run the handler makes from session [st]. *)
Definition runLines (st : Session) : list string :=
  feedbackLinesOf (JS.trim (feedbackInput st)).

Definition runPrompt (st : Session) : string :=
  JS.trim (systemPromptInput st).

Definition runTotal (batchSize : nat) (st : Session) : nat :=
  ceilDiv (length (runLines st)) batchSize.

Definition runReply (batchSize : nat) (ai : Service) (st : Session)
  : nat -> Reply :=
  replyAt ai batchSize (runLines st) (runPrompt st).

(** The request the handler sends for one chunk. *)
Definition chunkRequest (systemPrompt : string) (chunk : list string) : Request :=
  requestFor systemPrompt (JS.join JS.nl chunk).

(* ================================================================== *)
(** ** Worked inputs *)
(* ================================================================== *)

(** A session with nothing analysed yet, [text] in the feedback box. *)
Definition sessionWith (text systemPrompt : string) : Session :=
  mkSession text systemPrompt [] "" false NoTable true true true true
    (negb (JS.truthy (JS.trim text))) [] true [] [].

(** Four pasted lines, one of them blank. *)
Definition scenarioText : string :=
  "Great app!" ++ JS.nl ++ "Crashes on load" ++ JS.nl ++ JS.nl ++ "Needs dark mode".

Definition greatApp : LabeledFeedback :=
  mkLabeledFeedback "Great app!" ["Positive"] None.

Definition crashes : LabeledFeedback :=
  mkLabeledFeedback "Crashes on load" ["Bug Report"] None.

Definition darkMode : LabeledFeedback :=
  mkLabeledFeedback "Needs dark mode" ["Feature Request"] None.

(** A service that answers the first batch with one record and the second
    with two. *)
Definition scenarioService : Service :=
  fun i _ =>
    match i with
    | 0 => ParsedArray [greatApp]
    | 1 => ParsedArray [crashes; darkMode]
    | _ => Rejected
    end.

(** A service whose second call is rejected. *)
Definition failingService : Service :=
  fun i _ =>
    match i with
    | 0 => ParsedArray [greatApp]
    | _ => Rejected
    end.


(** One record whose two labels normalize to the same string. *)
Definition bugTwice : list LabeledFeedback :=
  [mkLabeledFeedback "a" ["Bug"; "#Bug"] (Some false)].

(** Labels with ties: [ui] and [bug] occur twice, [perf] three times,
    [docs] once, and one label normalizes to the empty string. *)
Definition tiedRecords : list LabeledFeedback :=
  [mkLabeledFeedback "r1" ["UI"; "Bug"; "#"] (Some false);
   mkLabeledFeedback "r2" ["perf"; " bug "; "Docs"; "Perf"] (Some false);
   mkLabeledFeedback "r3" [] (Some true);
   mkLabeledFeedback "r4" ["#ui"; "PERF"] None].

(** 251 one-letter lines: two batches of the page's batch size. *)
Definition longText : string := JS.join JS.nl (repeat "x" 251).

(* ================================================================== *)
(** ** File upload and custom labels *)
(* ================================================================== *)

(** A cell of [XLSX.utils.sheet_to_json(worksheet, { header: 1 })]: absent,
    [null], or a value, given by its [String(cell)]. *)
Inductive Cell : Type :=
| CellUndefined
| CellNull
| CellValue (text : string).

(** [row[0]] *)
Definition firstCell (row : list Cell) : Cell :=
  match row with
  | [] => CellUndefined
  | cell :: _ => cell
  end.

(** [cell !== undefined && cell !== null && String(cell).trim() !== ''] *)
Definition keepCell (cell : Cell) : bool :=
  match cell with
  | CellValue text => JS.truthy (JS.trim text)
  | _ => false
  end.

(** The string [join] writes for an element. *)
Definition cellText (cell : Cell) : string :=
  match cell with
  | CellValue text => text
  | _ => EmptyString
  end.

(** The cells the upload keeps, as texts. *)
Definition keptCells (json : list (list Cell)) : list string :=
  map cellText (filter keepCell (map firstCell json)).

(** [json.map(row => row[0]).filter(cell => ...).join('\n')] *)
Definition feedbackColumn (json : list (list Cell)) : string :=
  JS.join JS.nl (keptCells json).

Definition CR : ascii := ascii_of_nat 13.

(** What reading [textarea.value] returns for a raw value that was
    assigned to it: the raw value with every CR LF pair, and every other CR,
    replaced by one LF (the newline normalization of the HTML standard). *)
Fixpoint normalizeNewlines (s : string) : string :=
  match s with
  | EmptyString => EmptyString
  | String c r =>
      if Ascii.eqb c CR then
        match r with
        | EmptyString => String JS.LF EmptyString
        | String d r' =>
            if Ascii.eqb d JS.LF then String JS.LF (normalizeNewlines r')
            else String JS.LF (normalizeNewlines r)
        end
      else String c (normalizeNewlines r)
  end.

(** [feedbackInput.value = feedbackColumn] followed by a later read of
    [feedbackInput.value]. *)
Definition uploadedValue (json : list (list Cell)) : string :=
  normalizeNewlines (feedbackColumn json).

(** The custom labels of the single-call version of the page:
    [customLabelsValue ? customLabelsValue.split(',').map(label => label.trim())
                           .filter(label => label) : []]
    with [customLabelsValue = customLabelsInput.value.trim()]. *)
Definition customLabelsOf (inputValue : string) : list string :=
  let customLabelsValue := JS.trim inputValue in
  if JS.truthy customLabelsValue then
    filter JS.truthy (map JS.trim (JS.split COMMA customLabelsValue))
  else [].

(* ================================================================== *)
(** ** Further notions *)
(* ================================================================== *)

(** [s.includes(c)] for one code unit. *)
Fixpoint includesChar (c : ascii) (s : string) : bool :=
  match s with
  | EmptyString => false
  | String d r => Ascii.eqb d c || includesChar c r
  end.

(** Every code unit of [s] is white space. *)
Fixpoint allWhiteSpace (s : string) : bool :=
  match s with
  | EmptyString => true
  | String c r => JS.isWhiteSpace c && allWhiteSpace r
  end.

Definition startsWithHash (s : string) : bool :=
  match s with
  | EmptyString => false
  | String c _ => Ascii.eqb c "#"
  end.

(** A label as the edit handler stores it: trimmed, not empty, without a
    comma. *)
Definition plainLabel (l : string) : Prop :=
  JS.trim l = l /\ l <> EmptyString /\ includesChar COMMA l = false.

(** What is shown agrees with the records: an enabled export button means
    there are records, and a rendered table has one row per record, with the
    record's feedback and flag, beside the label counts of the records. *)
Definition viewInSync (st : Session) : Prop :=
  (exportDisabled st = false -> analysisResults st <> [])
  /\ (exportExplodedDisabled st = false -> analysisResults st <> [])
  /\ forall rows, resultsTable st = Table rows ->
       map rowFeedback rows = map feedback (analysisResults st)
       /\ map rowChecked rows = map flagged (analysisResults st)
       /\ map rowIncorrectClass rows = map flagged (analysisResults st)
       /\ labelCountsSummary st = sortedLabels (analysisResults st).

(* ================================================================== *)
(** * Properties *)
(* ================================================================== *)

(** ** Label Normalizer *)

Example normalizeLabel_hash_bug : normalizeLabel "#Bug" = "bug".
Proof. reflexivity. Qed.

Example normalizeLabel_spaces_bug : normalizeLabel "  BUG " = "bug".
Proof. reflexivity. Qed.

Example normalizeLabel_only_hashes : normalizeLabel " ## " = "".
Proof. reflexivity. Qed.

Example normalizeLabel_hash_space : normalizeLabel "# bug" = " bug".
Proof. reflexivity. Qed.

Section NormalizerFacts.

Import JS.

Lemma isWhiteSpace_lowerChar (c : ascii) :
  isWhiteSpace (lowerChar c) = isWhiteSpace c.
Proof.
  destruct c as [[] [] [] [] [] [] [] []]; reflexivity.
Qed.

Lemma lowerChar_idem (c : ascii) : lowerChar (lowerChar c) = lowerChar c.
Proof.
  destruct c as [[] [] [] [] [] [] [] []]; reflexivity.
Qed.

Lemma lowerChar_hash (c : ascii) :
  Ascii.eqb (lowerChar c) "#" = Ascii.eqb c "#".
Proof.
  destruct c as [[] [] [] [] [] [] [] []]; reflexivity.
Qed.

Lemma hash_not_whitespace (c : ascii) :
  Ascii.eqb c "#" = true -> isWhiteSpace c = false.
Proof.
  intro H. apply Ascii.eqb_eq in H. subst c. reflexivity.
Qed.

Lemma toLowerCase_idem (s : string) : toLowerCase (toLowerCase s) = toLowerCase s.
Proof.
  induction s as [|c r IH]; simpl; [reflexivity|].
  now rewrite lowerChar_idem, IH.
Qed.

Lemma toLowerCase_length (s : string) :
  String.length (toLowerCase s) = String.length s.
Proof.
  induction s as [|c r IH]; simpl; congruence.
Qed.

Lemma toLowerCase_replaceLeadingHashes (s : string) :
  toLowerCase (replaceLeadingHashes s) = replaceLeadingHashes (toLowerCase s).
Proof.
  induction s as [|c r IH]; simpl; [reflexivity|].
  rewrite lowerChar_hash.
  destruct (Ascii.eqb c "#"); [exact IH | reflexivity].
Qed.

Lemma replaceLeadingHashes_idem (s : string) :
  replaceLeadingHashes (replaceLeadingHashes s) = replaceLeadingHashes s.
Proof.
  induction s as [|c r IH]; simpl; [reflexivity|].
  destruct (Ascii.eqb c "#") eqn:E; [exact IH|].
  simpl. now rewrite E.
Qed.

Lemma replaceLeadingHashes_length (s : string) :
  String.length (replaceLeadingHashes s) <= String.length s.
Proof.
  induction s as [|c r IH]; simpl; [lia|].
  destruct (Ascii.eqb c "#"); simpl; lia.
Qed.

Lemma trimStart_length (s : string) :
  String.length (trimStart s) <= String.length s.
Proof.
  induction s as [|c r IH]; simpl; [lia|].
  destruct (isWhiteSpace c); simpl; lia.
Qed.

Lemma trimEnd_length (s : string) :
  String.length (trimEnd s) <= String.length s.
Proof.
  induction s as [|c r IH]; simpl; [lia|].
  destruct (trimEnd r); [destruct (isWhiteSpace c)|]; simpl in *; lia.
Qed.

Lemma trimStart_fixed (s : string) :
  startsWithWhiteSpace s = false -> trimStart s = s.
Proof.
  destruct s as [|c r]; simpl; [reflexivity|].
  now intros ->.
Qed.

Lemma trimStart_shrinks (s : string) :
  startsWithWhiteSpace s = true ->
  String.length (trimStart s) < String.length s.
Proof.
  destruct s as [|c r]; simpl; [discriminate|].
  intros ->. pose proof (trimStart_length r). lia.
Qed.

(** A string is [trimEnd]-fixed when it does not end in white space. *)
Lemma trimEnd_idem (s : string) : trimEnd (trimEnd s) = trimEnd s.
Proof.
  induction s as [|c r IH]; simpl; [reflexivity|].
  destruct (trimEnd r) as [|c' r'] eqn:E.
  - destruct (isWhiteSpace c) eqn:W; simpl; [reflexivity | now rewrite W].
  - simpl in *. now rewrite IH.
Qed.

Lemma trimEnd_fixed_tail (c : ascii) (r : string) :
  trimEnd (String c r) = String c r -> trimEnd r = r.
Proof.
  simpl. destruct (trimEnd r) as [|c' r'] eqn:E.
  - destruct (isWhiteSpace c); [discriminate|].
    intros H. injection H as <-. reflexivity.
  - intros H. now injection H.
Qed.

Lemma trimEnd_trimStart_fixed (s : string) :
  trimEnd s = s -> trimEnd (trimStart s) = trimStart s.
Proof.
  induction s as [|c r IH]; [reflexivity|].
  intros H. cbn [trimStart].
  destruct (isWhiteSpace c); [|exact H].
  apply IH. eapply trimEnd_fixed_tail; eassumption.
Qed.

Lemma trimEnd_toLowerCase (s : string) :
  trimEnd (toLowerCase s) = toLowerCase (trimEnd s).
Proof.
  induction s as [|c r IH]; simpl; [reflexivity|].
  rewrite IH. destruct (trimEnd r) as [|c' r']; simpl.
  - rewrite isWhiteSpace_lowerChar. now destruct (isWhiteSpace c).
  - reflexivity.
Qed.

Lemma trimEnd_replaceLeadingHashes_fixed (s : string) :
  trimEnd s = s -> trimEnd (replaceLeadingHashes s) = replaceLeadingHashes s.
Proof.
  induction s as [|c r IH]; [reflexivity|].
  intros H. cbn [replaceLeadingHashes].
  destruct (Ascii.eqb c "#"); [|exact H].
  apply IH. eapply trimEnd_fixed_tail; eassumption.
Qed.

Lemma trim_no_trailing (s : string) : trimEnd (trim s) = trim s.
Proof. unfold trim. apply trimEnd_idem. Qed.

(** The normalized form never ends in white space. *)
Lemma normalizeLabel_no_trailing (x : string) :
  trimEnd (normalizeLabel x) = normalizeLabel x.
Proof.
  unfold normalizeLabel.
  apply trimEnd_replaceLeadingHashes_fixed.
  rewrite trimEnd_toLowerCase. now rewrite trim_no_trailing.
Qed.

(** The normalized form is already lower-case. *)
Lemma normalizeLabel_lower (x : string) :
  toLowerCase (normalizeLabel x) = normalizeLabel x.
Proof.
  unfold normalizeLabel.
  now rewrite toLowerCase_replaceLeadingHashes, toLowerCase_idem.
Qed.

Lemma normalizeLabel_length (x : string) :
  String.length (normalizeLabel x) <= String.length (trimStart x).
Proof.
  unfold normalizeLabel, trim.
  pose proof (replaceLeadingHashes_length (toLowerCase (trimEnd (trimStart x)))).
  pose proof (toLowerCase_length (trimEnd (trimStart x))).
  pose proof (trimEnd_length (trimStart x)). lia.
Qed.

End NormalizerFacts.

(** Where the second pass of [normalizeLabel] differs from the first, on
    strings of code units below 256: exactly on the labels whose first pass
    left white space at the front, that is, whose leading run of [#] is
    followed by white space. *)
Lemma normalizeLabel_idempotent_iff (x : string) :
  normalizeLabel (normalizeLabel x) = normalizeLabel x
  <-> JS.startsWithWhiteSpace (normalizeLabel x) = false.
Proof.
  split.
  - intros H.
    destruct (JS.startsWithWhiteSpace (normalizeLabel x)) eqn:W; [|reflexivity].
    exfalso.
    pose proof (trimStart_shrinks _ W) as Hlt.
    pose proof (normalizeLabel_length (normalizeLabel x)) as Hle.
    rewrite H in Hle. lia.
  - intros W.
    unfold normalizeLabel at 1. unfold JS.trim.
    rewrite (trimStart_fixed _ W), normalizeLabel_no_trailing, normalizeLabel_lower.
    unfold normalizeLabel. apply replaceLeadingHashes_idem.
Qed.

(** C3: [normalizeLabel] is to be idempotent, and the code is not.  It
    trims before it removes the leading [#] and does not trim again, so the
    white space that followed the hashes stays: ["# bug"] normalizes to
    [" bug"], and that to ["bug"]. *)
Lemma normalizeLabel_not_idempotent :
  normalizeLabel "# bug" = " bug"
  /\ normalizeLabel (normalizeLabel "# bug") = "bug"
  /\ normalizeLabel (normalizeLabel "# bug") <> normalizeLabel "# bug".
Proof.
  repeat split; try reflexivity. discriminate.
Qed.

(* ================================================================== *)
(** ** [Array_sort]: permutation, order, stability *)
(* ================================================================== *)

Section SortFacts.

Context {A : Type} (cmp : A -> A -> Z).

Lemma insertSorted_perm (x : A) (l : list A) :
  Permutation (insertSorted cmp x l) (x :: l).
Proof.
  induction l as [|y r IH]; simpl; [apply Permutation_refl|].
  destruct (cmp y x <? 0)%Z.
  - eapply perm_trans; [apply perm_skip, IH | apply perm_swap].
  - apply Permutation_refl.
Qed.

Lemma Array_sort_perm (l : list A) : Permutation (Array_sort cmp l) l.
Proof.
  induction l as [|x r IH]; simpl; [constructor|].
  eapply perm_trans; [apply insertSorted_perm | now apply perm_skip].
Qed.

(** What the sort needs of the comparator: two elements are never each
    strictly before the other. *)
Hypothesis cmp_asym : forall a b, (cmp a b < 0)%Z -> (0 <= cmp b a)%Z.

Lemma insertSorted_HdRel (a x : A) (l : list A) :
  (notAfter cmp) a x -> HdRel (notAfter cmp) a l -> HdRel (notAfter cmp) a (insertSorted cmp x l).
Proof.
  intros Hax Hal. destruct l as [|y r]; simpl; [now constructor|].
  destruct (cmp y x <? 0)%Z; constructor; [now inversion Hal | exact Hax].
Qed.

Lemma insertSorted_Sorted (x : A) (l : list A) :
  Sorted (notAfter cmp) l -> Sorted (notAfter cmp) (insertSorted cmp x l).
Proof.
  induction l as [|y r IH]; simpl; intros Hs.
  - repeat constructor.
  - destruct (cmp y x <? 0)%Z eqn:E.
    + apply Z.ltb_lt in E. inversion Hs; subst.
      constructor; [now apply IH|].
      apply insertSorted_HdRel; [|assumption].
      now apply cmp_asym.
    + apply Z.ltb_ge in E. constructor; [assumption|].
      constructor. exact E.
Qed.

Lemma Array_sort_Sorted (l : list A) : Sorted (notAfter cmp) (Array_sort cmp l).
Proof.
  induction l as [|x r IH]; simpl; [constructor|].
  now apply insertSorted_Sorted.
Qed.

(** Stability: the elements of one class of the comparator keep their
    relative order. *)
Lemma insertSorted_filter (p : A -> bool) (x : A) (l : list A) :
  (forall a b, p a = true -> p b = true -> cmp a b = 0%Z) ->
  filter p (insertSorted cmp x l) = filter p (x :: l).
Proof.
  intros Hp. induction l as [|y r IH]; [reflexivity|].
  cbn [insertSorted]. destruct (cmp y x <? 0)%Z eqn:E; [|reflexivity].
  apply Z.ltb_lt in E. cbn [filter] in *. rewrite IH.
  destruct (p y) eqn:Py, (p x) eqn:Px; try reflexivity.
  rewrite (Hp y x Py Px) in E. lia.
Qed.

Lemma Array_sort_filter (p : A -> bool) (l : list A) :
  (forall a b, p a = true -> p b = true -> cmp a b = 0%Z) ->
  filter p (Array_sort cmp l) = filter p l.
Proof.
  intros Hp. induction l as [|x r IH]; [reflexivity|].
  cbn [Array_sort]. rewrite insertSorted_filter by assumption.
  cbn [filter]. now rewrite IH.
Qed.

End SortFacts.

(** Sorting commutes with a renaming of the elements that the comparators
    agree on. *)
Lemma Array_sort_map {A B : Type} (f : A -> B) (cmpA : A -> A -> Z)
  (cmpB : B -> B -> Z) (l : list A) :
  (forall a b, cmpB (f a) (f b) = cmpA a b) ->
  Array_sort cmpB (map f l) = map f (Array_sort cmpA l).
Proof.
  intros Hf. induction l as [|x r IH]; [reflexivity|].
  cbn [map Array_sort]. rewrite IH. clear IH.
  induction (Array_sort cmpA r) as [|y t IHt]; [reflexivity|].
  cbn [map insertSorted]. rewrite Hf.
  destruct (cmpA y x <? 0)%Z; cbn [map]; [now rewrite IHt | reflexivity].
Qed.

(* ================================================================== *)
(** ** Aggregator: what the count map holds *)
(* ================================================================== *)

Section AggregatorFacts.

Lemma eqb_flip (x y : string) : String.eqb x y = String.eqb y x.
Proof. apply String.eqb_sym. Qed.

Lemma mem_In (x : string) (l : list string) : mem x l = true <-> In x l.
Proof.
  unfold mem. rewrite existsb_exists. split.
  - intros [y [Hy E]]. apply String.eqb_eq in E. now subst.
  - intros H. exists x. split; [assumption | apply String.eqb_refl].
Qed.

Lemma mem_false_In (x : string) (l : list string) : mem x l = false <-> ~ In x l.
Proof.
  rewrite <- mem_In. destruct (mem x l); split; congruence.
Qed.

Lemma firstSeen_snoc (l : list string) (x : string) :
  firstSeen (l ++ [x]) = if mem x l then firstSeen l else firstSeen l ++ [x].
Proof.
  induction l as [|a l IH]; [reflexivity|].
  cbn [app firstSeen]. rewrite IH. unfold mem in *. cbn [existsb].
  destruct (existsb (String.eqb x) l).
  - now rewrite orb_true_r.
  - rewrite orb_false_r, filter_app. cbn [filter].
    destruct (String.eqb x a); cbn [negb]; [now rewrite app_nil_r | reflexivity].
Qed.

Lemma firstSeen_In (l : list string) (x : string) : In x (firstSeen l) <-> In x l.
Proof.
  induction l as [|a l IH]; [reflexivity|].
  cbn [firstSeen In]. rewrite filter_In, IH.
  destruct (String.eqb x a) eqn:E.
  - apply String.eqb_eq in E. subst. tauto.
  - assert (a <> x) by (intros ->; rewrite String.eqb_refl in E; discriminate).
    cbn [negb]. tauto.
Qed.

Lemma firstSeen_NoDup (l : list string) : NoDup (firstSeen l).
Proof.
  induction l as [|a l IH]; cbn [firstSeen]; constructor.
  - rewrite filter_In, String.eqb_refl. intros [_ H]. discriminate.
  - now apply NoDup_filter.
Qed.

Lemma mem_firstSeen (l : list string) (x : string) : mem x (firstSeen l) = mem x l.
Proof.
  destruct (mem x l) eqn:E.
  - apply mem_In, firstSeen_In, mem_In, E.
  - apply mem_false_In. rewrite firstSeen_In. now apply mem_false_In.
Qed.

Lemma occurrences_snoc (y : string) (l : list string) (x : string) :
  occurrences y (l ++ [x]) = occurrences y l + (if String.eqb y x then 1 else 0).
Proof.
  unfold occurrences. rewrite filter_app, length_app. cbn [filter].
  now destruct (String.eqb y x).
Qed.

Lemma occurrences_absent (x : string) (l : list string) :
  mem x l = false -> occurrences x l = 0.
Proof.
  unfold mem, occurrences. induction l as [|a l IH]; [reflexivity|].
  cbn [existsb filter]. destruct (String.eqb x a); [discriminate|].
  exact IH.
Qed.

Lemma occurrences_present (x : string) (l : list string) :
  In x l -> 1 <= occurrences x l.
Proof.
  unfold occurrences. induction l as [|a l IH]; [contradiction|].
  intros [-> | H]; cbn [filter].
  - rewrite String.eqb_refl. cbn. lia.
  - destruct (String.eqb x a); cbn [length]; [lia | now apply IH].
Qed.

(** The code's [(labelCounts.get(k) || 0) + 1] written on the list. *)
Lemma countNormalized_cons (k : string) (v : nat) (m : list (string * nat))
  (x : string) :
  countNormalized ((k, v) :: m) x =
  if String.eqb k x then (x, v + 1) :: m else (k, v) :: countNormalized m x.
Proof.
  unfold countNormalized. cbn [Map_get Map_set].
  destruct (String.eqb k x); [|reflexivity].
  now destruct v.
Qed.

Lemma countNormalized_map (f : string -> nat) (l : list string) (x : string) :
  NoDup l ->
  countNormalized (map (fun y => (y, f y)) l) x =
  map (fun y => (y, f y + (if String.eqb y x then 1 else 0))) l
  ++ (if mem x l then [] else [(x, 1)]).
Proof.
  induction l as [|a l IH]; intros Hnd; [reflexivity|].
  inversion Hnd as [|? ? Ha Hl]; subst.
  cbn [map]. rewrite countNormalized_cons.
  unfold mem. cbn [existsb]. rewrite (eqb_flip x a).
  destruct (String.eqb a x) eqn:E.
  - apply String.eqb_eq in E. subst a. cbn [orb app]. rewrite app_nil_r.
    f_equal. apply map_ext_in. intros y Hy.
    destruct (String.eqb y x) eqn:E'.
    + apply String.eqb_eq in E'. now subst.
    + now rewrite Nat.add_0_r.
  - cbn [orb app]. rewrite Nat.add_0_r. f_equal. now apply IH.
Qed.

Lemma countNormalized_tally (l : list string) (x : string) :
  countNormalized (tally l) x = tally (l ++ [x]).
Proof.
  unfold tally. rewrite countNormalized_map by apply firstSeen_NoDup.
  rewrite mem_firstSeen, firstSeen_snoc.
  destruct (mem x l) eqn:E.
  - rewrite app_nil_r. apply map_ext. intros y. now rewrite occurrences_snoc.
  - rewrite map_app. cbn [map]. f_equal.
    + apply map_ext. intros y. now rewrite occurrences_snoc.
    + now rewrite occurrences_snoc, String.eqb_refl, occurrences_absent.
Qed.

Lemma fold_countNormalized_tally (l p : list string) :
  fold_left countNormalized l (tally p) = tally (p ++ l).
Proof.
  revert p. induction l as [|x l IH]; intros p; cbn [fold_left].
  - now rewrite app_nil_r.
  - rewrite countNormalized_tally, IH, <- app_assoc. reflexivity.
Qed.

(** The inner loop counts the normalized, non-empty labels of one record. *)
Lemma fold_countLabel (ls : list string) (m : list (string * nat)) :
  fold_left countLabel ls m =
  fold_left countNormalized (filter JS.truthy (map normalizeLabel ls)) m.
Proof.
  revert m. induction ls as [|x ls IH]; intros m; [reflexivity|].
  cbn [fold_left map filter]. rewrite IH. unfold countLabel.
  destruct (JS.truthy (normalizeLabel x)); reflexivity.
Qed.

Lemma countedLabels_cons (r : LabeledFeedback) (rs : list LabeledFeedback) :
  countedLabels (r :: rs) =
  filter JS.truthy (map normalizeLabel (labels r)) ++ countedLabels rs.
Proof. reflexivity. Qed.

Lemma allLabels_cons (r : LabeledFeedback) (rs : list LabeledFeedback) :
  allLabels (r :: rs) = labels r ++ allLabels rs.
Proof. reflexivity. Qed.

Lemma fold_records (records : list LabeledFeedback) (m : list (string * nat)) :
  fold_left (fun m item => fold_left countLabel (labels item) m) records m =
  fold_left countNormalized (countedLabels records) m.
Proof.
  revert m. induction records as [|r rs IH]; intros m; [reflexivity|].
  cbn [fold_left]. rewrite IH, countedLabels_cons, fold_left_app.
  now rewrite fold_countLabel.
Qed.

(** The count map after both loops: the distinct counted labels in order of
    first occurrence, each with its number of occurrences. *)
Lemma countLabels_tally (records : list LabeledFeedback) :
  countLabels records = tally (countedLabels records).
Proof.
  unfold countLabels. rewrite fold_records.
  apply (fold_countNormalized_tally (countedLabels records) []).
Qed.

Lemma sumCounts_countNormalized (m : list (string * nat)) (x : string) :
  sumCounts (countNormalized m x) = sumCounts m + 1.
Proof.
  induction m as [|[k v] m IH]; [reflexivity|].
  rewrite countNormalized_cons.
  unfold sumCounts in *. destruct (String.eqb k x); simpl in *; lia.
Qed.

Lemma sumCounts_fold (l : list string) (m : list (string * nat)) :
  sumCounts (fold_left countNormalized l m) = sumCounts m + length l.
Proof.
  revert m. induction l as [|x l IH]; intros m; cbn [fold_left length]; [lia|].
  rewrite IH, sumCounts_countNormalized. lia.
Qed.

Lemma sumCounts_countLabels (records : list LabeledFeedback) :
  sumCounts (countLabels records) = length (countedLabels records).
Proof.
  unfold countLabels. rewrite fold_records, sumCounts_fold. reflexivity.
Qed.

Lemma sumCounts_perm (a b : list (string * nat)) :
  Permutation a b -> sumCounts a = sumCounts b.
Proof.
  unfold sumCounts. induction 1; simpl in *; lia.
Qed.

Lemma sumCountRows_map (entries : list (string * nat)) :
  sumCountRows (map (fun e => mkCountRow (fst e) (snd e)) entries) =
  sumCounts entries.
Proof.
  unfold sumCountRows, sumCounts.
  induction entries as [|e es IH]; simpl in *; [reflexivity | now rewrite IH].
Qed.

(** The Label Counts sheet holds the entries of the summary, renamed. *)
Lemma countsData_sortedLabels (records : list LabeledFeedback) :
  countsData records =
  map (fun e => mkCountRow (fst e) (snd e)) (sortedLabels records).
Proof.
  unfold countsData, sortedLabels. now apply Array_sort_map.
Qed.

Lemma filter_all_length {A : Type} (p : A -> bool) (l : list A) :
  (forall x, In x l -> p x = true) -> length (filter p l) = length l.
Proof.
  induction l as [|x l IH]; intros H; [reflexivity|].
  cbn [filter]. rewrite (H x) by now left.
  cbn [length]. f_equal. apply IH. intros y Hy. apply H. now right.
Qed.

(** Every label normalizes to a non-empty string: then nothing is dropped. *)
Lemma countedLabels_all (records : list LabeledFeedback) :
  (forall label, In label (allLabels records) ->
                 JS.truthy (normalizeLabel label) = true) ->
  length (countedLabels records) = length (allLabels records).
Proof.
  induction records as [|r rs IH]; intros H; [reflexivity|].
  rewrite countedLabels_cons, allLabels_cons, !length_app.
  rewrite IH by (intros l Hl; apply H; rewrite allLabels_cons; apply in_or_app; now right).
  f_equal. rewrite filter_all_length, length_map; [reflexivity|].
  intros n Hn. apply in_map_iff in Hn. destruct Hn as [l [<- Hl]].
  apply H. rewrite allLabels_cons. apply in_or_app. now left.
Qed.

Lemma countedLabels_le (records : list LabeledFeedback) :
  length (countedLabels records) <= length (allLabels records).
Proof.
  induction records as [|r rs IH]; [reflexivity|].
  rewrite countedLabels_cons, allLabels_cons, !length_app.
  pose proof (filter_length_le JS.truthy (map normalizeLabel (labels r))) as H.
  rewrite length_map in H. lia.
Qed.

End AggregatorFacts.

(* ================================================================== *)
(** ** Aggregator: the properties of the sorted counts *)
(* ================================================================== *)

Lemma truthy_iff (s : string) : JS.truthy s = true <-> s <> "".
Proof.
  destruct s; cbn; split; congruence.
Qed.

Lemma Sorted_weaken {A : Type} (R R' : A -> A -> Prop) (l : list A) :
  (forall a b, R a b -> R' a b) -> Sorted R l -> Sorted R' l.
Proof.
  intros HR. induction 1 as [|a l Hs IH Hd]; constructor; [assumption|].
  destruct Hd; constructor. now apply HR.
Qed.

(** The summary is a rearrangement of the count map. *)
Lemma sortedLabels_perm (records : list LabeledFeedback) :
  Permutation (sortedLabels records) (countLabels records).
Proof. apply Array_sort_perm. Qed.

(** The counts always add up to the number of labels that were counted. *)
Lemma sortedLabels_sum (records : list LabeledFeedback) :
  sumCounts (sortedLabels records) = length (countedLabels records).
Proof.
  rewrite (sumCounts_perm _ _ (sortedLabels_perm records)).
  apply sumCounts_countLabels.
Qed.

Lemma countsData_sum (records : list LabeledFeedback) :
  sumCountRows (countsData records) = length (countedLabels records).
Proof.
  rewrite countsData_sortedLabels, sumCountRows_map. apply sortedLabels_sum.
Qed.

(** Every count is at least one. *)
Lemma sortedLabels_positive (records : list LabeledFeedback) (e : string * nat) :
  In e (sortedLabels records) -> 1 <= snd e.
Proof.
  intros H.
  apply (Permutation_in _ (sortedLabels_perm records)) in H.
  rewrite countLabels_tally in H. unfold tally in H.
  apply in_map_iff in H. destruct H as [x [<- Hx]]. cbn [snd].
  apply occurrences_present. now apply firstSeen_In.
Qed.

(** What [updateAndRenderStats] shows is [sortedLabels] of the current
    records, also when there is nothing to show. *)
Lemma updateAndRenderStats_summary (st : Session) :
  labelCountsSummary (updateAndRenderStats st) = sortedLabels (analysisResults st)
  /\ labelCountsHidden (updateAndRenderStats st)
     = Nat.eqb (length (sortedLabels (analysisResults st))) 0
  /\ analysisResults (updateAndRenderStats st) = analysisResults st.
Proof.
  unfold updateAndRenderStats.
  assert (Hlen : length (sortedLabels (analysisResults st)) =
                 length (countLabels (analysisResults st)))
    by apply Permutation_length, sortedLabels_perm.
  rewrite Hlen.
  destruct (countLabels (analysisResults st)) as [|e es] eqn:E.
  - unfold sortedLabels. rewrite E. repeat split.
  - cbn [length Nat.eqb]. repeat split.
Qed.

(** C5: the counts of the aggregate (the summary's entries, and the rows of
    the Label Counts sheet) add up to at most the number of labels whose
    normalized form is non-empty, and to exactly that number, which is then
    the number of all labels, when no label normalizes to the empty
    string. *)
Theorem aggregate_sum_counts (records : list LabeledFeedback) :
  sumCounts (sortedLabels records) <= length (countedLabels records)
  /\ sumCountRows (countsData records) <= length (countedLabels records)
  /\ ((forall label, In label (allLabels records) -> normalizeLabel label <> "") ->
      sumCounts (sortedLabels records) = length (countedLabels records)
      /\ sumCountRows (countsData records) = length (countedLabels records)
      /\ length (countedLabels records) = length (allLabels records)).
Proof.
  rewrite sortedLabels_sum, countsData_sum.
  split; [reflexivity|]. split; [reflexivity|].
  intros Hne. split; [reflexivity|]. split; [reflexivity|].
  apply countedLabels_all. intros l Hl. apply truthy_iff. now apply Hne.
Qed.

Lemma aggregate_sum_counts_witness :
  sumCounts (sortedLabels bugTwice) = length (countedLabels bugTwice)
  /\ length (countedLabels bugTwice) = length (allLabels bugTwice).
Proof.
  assert (Hne : forall label, In label (allLabels bugTwice) ->
                              normalizeLabel label <> "").
  { intros label [<- | [<- | []]]; vm_compute; discriminate. }
  pose proof (proj2 (proj2 (aggregate_sum_counts bugTwice)) Hne) as H.
  split; [apply H | apply (proj2 (proj2 H))].
Defined.

(** C6: the aggregate is sorted by count, non-increasing: in the summary
    and in the Label Counts sheet each entry's count is at least the next
    one's. *)
Theorem aggregate_sorted (records : list LabeledFeedback) :
  Sorted (fun a b => snd b <= snd a) (sortedLabels records)
  /\ Sorted (fun a b => Count b <= Count a) (countsData records).
Proof.
  split.
  - apply Sorted_weaken with (R := notAfter byCountDesc).
    + unfold notAfter, byCountDesc. intros a b H. lia.
    + apply Array_sort_Sorted. unfold byCountDesc. intros a b H. lia.
  - apply Sorted_weaken with (R := notAfter byCountRowDesc).
    + unfold notAfter, byCountRowDesc. intros a b H. lia.
    + apply Array_sort_Sorted. unfold byCountRowDesc. intros a b H. lia.
Qed.

Lemma filter_tally (c : nat) (l f : list string) :
  map fst (filter (fun e => Nat.eqb (snd e) c)
             (map (fun x => (x, occurrences x l)) f)) =
  filter (fun x => Nat.eqb (occurrences x l) c) f.
Proof.
  induction f as [|x f IH]; [reflexivity|].
  cbn [map filter snd]. destruct (Nat.eqb (occurrences x l) c); cbn [map fst];
    now rewrite IH.
Qed.

Lemma filter_countRows (c : nat) (entries : list (string * nat)) :
  map Label (filter (fun r => Nat.eqb (Count r) c)
               (map (fun e => mkCountRow (fst e) (snd e)) entries)) =
  map fst (filter (fun e => Nat.eqb (snd e) c) entries).
Proof.
  induction entries as [|e es IH]; [reflexivity|].
  cbn [map filter Count]. destruct (Nat.eqb (snd e) c); cbn [map Label];
    now rewrite IH.
Qed.

(** The summary does not depend on how the engine sorts: any arrangement
    that is in non-increasing order of count and keeps, for every count, the
    entries of that count in their order in the map, is the one
    [Array_sort] gives. *)
Lemma desc_head_max (a : string * nat) (l : list (string * nat)) :
  Sorted (fun x y => snd y <= snd x) (a :: l) ->
  Forall (fun e => snd e <= snd a) l.
Proof.
  intros H. apply Sorted_StronglySorted in H.
  - now inversion H.
  - intros x y z Hxy Hyz. lia.
Qed.

Lemma filter_count_none (c : nat) (l : list (string * nat)) :
  Forall (fun e => snd e < c) l -> filter (fun e => Nat.eqb (snd e) c) l = [].
Proof.
  induction 1 as [|e l He _ IH]; [reflexivity|].
  cbn [filter]. destruct (Nat.eqb_spec (snd e) c); [lia | exact IH].
Qed.

Lemma desc_determined (l1 l2 : list (string * nat)) :
  Sorted (fun x y => snd y <= snd x) l1 ->
  Sorted (fun x y => snd y <= snd x) l2 ->
  (forall c, filter (fun e => Nat.eqb (snd e) c) l1 =
             filter (fun e => Nat.eqb (snd e) c) l2) ->
  l1 = l2.
Proof.
  revert l2. induction l1 as [|a r1 IH]; intros l2 S1 S2 Hf.
  - destruct l2 as [|b r2]; [reflexivity|].
    specialize (Hf (snd b)). cbn [filter] in Hf.
    rewrite Nat.eqb_refl in Hf. discriminate.
  - destruct l2 as [|b r2].
    + specialize (Hf (snd a)). cbn [filter] in Hf.
      rewrite Nat.eqb_refl in Hf. discriminate.
    + pose proof (desc_head_max _ _ S1) as M1.
      pose proof (desc_head_max _ _ S2) as M2.
      assert (Hab : a = b).
      { destruct (Nat.lt_trichotomy (snd a) (snd b)) as [Hlt | [Heq | Hgt]].
        - specialize (Hf (snd b)). cbn [filter] in Hf.
          rewrite Nat.eqb_refl in Hf.
          destruct (Nat.eqb_spec (snd a) (snd b)); [lia|].
          rewrite (filter_count_none (snd b) r1) in Hf; [discriminate|].
          eapply Forall_impl; [|exact M1]. cbn. intros e He. lia.
        - specialize (Hf (snd a)). cbn [filter] in Hf.
          rewrite Nat.eqb_refl in Hf. rewrite <- Heq, Nat.eqb_refl in Hf.
          now injection Hf.
        - specialize (Hf (snd a)). cbn [filter] in Hf.
          rewrite Nat.eqb_refl in Hf.
          destruct (Nat.eqb_spec (snd b) (snd a)); [lia|].
          rewrite (filter_count_none (snd a) r2) in Hf; [discriminate|].
          eapply Forall_impl; [|exact M2]. cbn. intros e He. lia. }
      subst b. f_equal. apply IH.
      * now inversion S1.
      * now inversion S2.
      * intros c. specialize (Hf c). cbn [filter] in Hf.
        destruct (Nat.eqb (snd a) c); [now injection Hf | exact Hf].
Qed.

Lemma stable_sort_unique (entries out : list (string * nat)) :
  Sorted (fun x y => snd y <= snd x) out ->
  (forall c, filter (fun e => Nat.eqb (snd e) c) out =
             filter (fun e => Nat.eqb (snd e) c) entries) ->
  out = Array_sort byCountDesc entries.
Proof.
  intros Hs Hf. apply desc_determined; [exact Hs | |].
  - apply Sorted_weaken with (R := notAfter byCountDesc).
    + unfold notAfter, byCountDesc. intros a b H. lia.
    + apply Array_sort_Sorted. unfold byCountDesc. intros a b H. lia.
  - intros c. rewrite Hf. symmetry. apply Array_sort_filter.
    intros a b Ha Hb. apply Nat.eqb_eq in Ha, Hb. unfold byCountDesc. lia.
Qed.

(** C10: among the entries of the aggregate that share a count [c], the
    labels stand in the order in which their normalized form was first met
    while scanning the records in order and each record's labels in order:
    read off the summary (or the Label Counts sheet), the labels of count [c]
    are the first-seen sequence of counted labels restricted to those that
    occur [c] times. *)
Theorem aggregate_ties_first_seen (records : list LabeledFeedback) (c : nat) :
  map fst (filter (fun e => Nat.eqb (snd e) c) (sortedLabels records)) =
  filter (fun x => Nat.eqb (occurrences x (countedLabels records)) c)
    (firstSeen (countedLabels records))
  /\ map Label (filter (fun r => Nat.eqb (Count r) c) (countsData records)) =
     filter (fun x => Nat.eqb (occurrences x (countedLabels records)) c)
       (firstSeen (countedLabels records)).
Proof.
  assert (H : map fst (filter (fun e => Nat.eqb (snd e) c) (sortedLabels records)) =
              filter (fun x => Nat.eqb (occurrences x (countedLabels records)) c)
                (firstSeen (countedLabels records))).
  { unfold sortedLabels. rewrite Array_sort_filter.
    - rewrite countLabels_tally. apply filter_tally.
    - intros a b Ha Hb. apply Nat.eqb_eq in Ha, Hb. unfold byCountDesc. lia. }
  split; [exact H|].
  rewrite countsData_sortedLabels, filter_countRows. exact H.
Qed.

(* ================================================================== *)
(** ** Export Builder *)
(* ================================================================== *)

Section ExportFacts.

Lemma fold_push_rows (item : LabeledFeedback) (ls : list string)
  (rows : list ExplodedRow) :
  fold_left
    (fun rows label => rows ++ [mkExplodedRow (feedback item) label (yesNo item)])
    ls rows =
  rows ++ map (fun label => mkExplodedRow (feedback item) label (yesNo item)) ls.
Proof.
  revert rows. induction ls as [|l ls IH]; intros rows; cbn [fold_left map].
  - now rewrite app_nil_r.
  - rewrite IH, <- app_assoc. reflexivity.
Qed.

Lemma explodeItem_rows (rows : list ExplodedRow) (item : LabeledFeedback) :
  explodeItem rows item = rows ++ explodedRowsOf item.
Proof.
  unfold explodeItem, explodedRowsOf.
  destruct (labels item) as [|l ls] eqn:E; [reflexivity|].
  cbn [length Nat.eqb]. apply fold_push_rows.
Qed.

Lemma fold_explodeItem (records : list LabeledFeedback) (rows : list ExplodedRow) :
  fold_left explodeItem records rows = rows ++ flat_map explodedRowsOf records.
Proof.
  revert rows. induction records as [|r rs IH]; intros rows;
    cbn [fold_left flat_map].
  - now rewrite app_nil_r.
  - rewrite IH, explodeItem_rows, <- app_assoc. reflexivity.
Qed.

Lemma explodedData_flat_map (records : list LabeledFeedback) :
  explodedData records = flat_map explodedRowsOf records.
Proof. apply (fold_explodeItem records []). Qed.

Lemma explodedRowsOf_length (item : LabeledFeedback) :
  length (explodedRowsOf item) = Nat.max 1 (length (labels item)).
Proof.
  unfold explodedRowsOf. destruct (labels item) as [|l ls]; [reflexivity|].
  rewrite length_map. cbn [length]. lia.
Qed.

Lemma explodedRowsOf_feedback (item : LabeledFeedback) :
  In (feedback item) (map eFeedback (explodedRowsOf item)).
Proof.
  unfold explodedRowsOf. destruct (labels item) as [|l ls]; left; reflexivity.
Qed.

Lemma set_downloads_frame (v : list (string * Workbook)) (st : Session) :
  set_downloads (downloads st) (set_downloads v st) = st.
Proof. destruct st; reflexivity. Qed.

End ExportFacts.

(** C4: the exploded view holds, record by record and in order, one row
    per label of the record, or one row with an empty Single Label for a
    record without labels; its length is the sum over the records of
    [max 1 (number of labels)], and every record's feedback stands in some
    row. *)
Theorem exploded_view_rows (records : list LabeledFeedback) :
  length (explodedData records) = explodedRowCount records
  /\ explodedData records = flat_map explodedRowsOf records
  /\ incl (map feedback records) (map eFeedback (explodedData records)).
Proof.
  rewrite explodedData_flat_map. split; [|split; [reflexivity|]].
  - induction records as [|r rs IH]; [reflexivity|].
    cbn [flat_map explodedRowCount fold_right].
    rewrite length_app, explodedRowsOf_length. unfold explodedRowCount in IH.
    now rewrite IH.
  - induction records as [|r rs IH]; intros x Hx; [contradiction|].
    cbn [flat_map map] in *. rewrite map_app. apply in_or_app.
    destruct Hx as [<- | Hx]; [left; apply explodedRowsOf_feedback|].
    right. now apply IH.
Qed.

(** A record without labels gives exactly one row, with an empty label. *)
Lemma exploded_view_no_labels (item : LabeledFeedback) :
  labels item = [] ->
  explodedData [item] = [mkExplodedRow (feedback item) "" (yesNo item)].
Proof.
  intros H. rewrite explodedData_flat_map. cbn [flat_map].
  unfold explodedRowsOf. now rewrite H.
Qed.

(** The compiled view has one row per record. *)
Lemma compiled_view_rows (records : list LabeledFeedback) :
  length (compiledData records) = length records.
Proof. apply length_map. Qed.

(** C9: neither export changes the records.  After the click handler of
    the basic export or of the detailed export, and after either builder
    called on any array, [analysisResults] is the same sequence of the same
    records (text, labels and flag); the only field of the session that
    differs is the list of downloaded workbooks. *)
Theorem exports_leave_records (st : Session) (labeledFeedback : list LabeledFeedback) :
  analysisResults (exportClick st) = analysisResults st
  /\ analysisResults (exportExplodedClick st) = analysisResults st
  /\ analysisResults (generateAndDownloadExcel labeledFeedback st) = analysisResults st
  /\ analysisResults (generateAndDownloadExplodedExcel labeledFeedback st)
     = analysisResults st
  /\ set_downloads (downloads st) (exportClick st) = st
  /\ set_downloads (downloads st) (exportExplodedClick st) = st.
Proof.
  unfold exportClick, exportExplodedClick, generateAndDownloadExcel,
    generateAndDownloadExplodedExcel.
  destruct (Nat.ltb 0 (length (analysisResults st)));
    repeat split; try reflexivity; try apply set_downloads_frame;
    destruct st; reflexivity.
Qed.

(** What the two exports write. *)
Lemma exports_workbooks (st : Session) :
  analysisResults st <> [] ->
  downloads (exportClick st) =
    downloads st ++
    [("feedback_analysis_results.xlsx",
      [("Feedback Analysis", CompiledSheet (compiledData (analysisResults st)))])]
  /\ downloads (exportExplodedClick st) =
    downloads st ++
    [("feedback_analysis_detailed_export.xlsx",
      [("Exploded by Label", ExplodedSheet (explodedData (analysisResults st)));
       ("Compiled View", CompiledSheet (compiledData (analysisResults st)));
       ("Label Counts", CountsSheet (countsData (analysisResults st)))])].
Proof.
  intros H. unfold exportClick, exportExplodedClick.
  destruct (analysisResults st) as [|r rs] eqn:E; [contradiction|].
  cbn [length Nat.ltb Nat.leb]. split; reflexivity.
Qed.

(* ================================================================== *)
(** ** Batch Classifier: chunks *)
(* ================================================================== *)

Section ChunkFacts.

Variable batchSize : nat.
Hypothesis batchSize_pos : 0 < batchSize.

Lemma ceilDiv_zero : ceilDiv 0 batchSize = 0.
Proof.
  unfold ceilDiv. rewrite Nat.Div0.div_0_l, Nat.Div0.mod_0_l. reflexivity.
Qed.

Lemma ceilDiv_step (n : nat) :
  0 < n -> ceilDiv n batchSize = S (ceilDiv (n - batchSize) batchSize).
Proof.
  intros Hn. unfold ceilDiv.
  destruct (Nat.le_gt_cases batchSize n) as [Hge | Hlt].
  - replace n with ((n - batchSize) + 1 * batchSize) at 1 2 by lia.
    rewrite Nat.div_add, Nat.Div0.mod_add by lia. lia.
  - rewrite Nat.div_small, Nat.mod_small by assumption.
    replace (n - batchSize) with 0 by lia.
    rewrite Nat.Div0.div_0_l, Nat.Div0.mod_0_l.
    destruct n; [lia | reflexivity].
Qed.

(** [Math.ceil]: the least number of batches that hold all the lines. *)
Lemma ceilDiv_spec (n : nat) :
  n <= ceilDiv n batchSize * batchSize
  /\ ceilDiv n batchSize * batchSize < n + batchSize.
Proof.
  unfold ceilDiv.
  pose proof (Nat.div_mod_eq n batchSize) as E.
  pose proof (Nat.mod_upper_bound n batchSize ltac:(lia)) as U.
  destruct (Nat.eqb (n mod batchSize) 0) eqn:Z0.
  - apply Nat.eqb_eq in Z0. nia.
  - apply Nat.eqb_neq in Z0. nia.
Qed.

Lemma batchLinesAt_firstn (l : list string) (i : nat) :
  batchLinesAt batchSize l i = firstn batchSize (skipn (i * batchSize) l).
Proof.
  unfold batchLinesAt, JS.slice. f_equal. lia.
Qed.

Lemma batchLinesAt_succ (l : list string) (i : nat) :
  batchLinesAt batchSize l (S i) = batchLinesAt batchSize (skipn batchSize l) i.
Proof.
  rewrite !batchLinesAt_firstn, skipn_skipn. do 2 f_equal. lia.
Qed.

Lemma batches_nil : batches batchSize [] = [].
Proof.
  unfold batches. cbn [length]. now rewrite ceilDiv_zero.
Qed.

Lemma batches_cons (l : list string) :
  l <> [] ->
  batches batchSize l = firstn batchSize l :: batches batchSize (skipn batchSize l).
Proof.
  intros Hl. unfold batches.
  rewrite ceilDiv_step by (destruct l; [contradiction | cbn; lia]).
  rewrite length_skipn. cbn [seq map]. f_equal.
  - now rewrite batchLinesAt_firstn.
  - rewrite <- seq_shift, map_map. apply map_ext. intros i.
    apply batchLinesAt_succ.
Qed.

(** Induction along the chunks of a list. *)
Lemma batches_ind (P : list string -> Prop) :
  P [] ->
  (forall l, l <> [] -> P (skipn batchSize l) -> P l) ->
  forall l, P l.
Proof.
  intros Hnil Hstep l.
  remember (length l) as n eqn:En. revert l En.
  induction n as [n IH] using lt_wf_ind. intros l En.
  destruct l as [|x r]; [exact Hnil|].
  apply Hstep; [discriminate|].
  apply (IH (length (skipn batchSize (x :: r)))); [|reflexivity].
  rewrite length_skipn. subst n. cbn [length]. lia.
Qed.

Lemma batches_concat (l : list string) : concat (batches batchSize l) = l.
Proof.
  induction l as [|l Hl IH] using batches_ind.
  - now rewrite batches_nil.
  - rewrite batches_cons by assumption. cbn [concat].
    rewrite IH. apply firstn_skipn.
Qed.

Lemma batches_length (l : list string) :
  length (batches batchSize l) = ceilDiv (length l) batchSize.
Proof.
  unfold batches. now rewrite length_map, length_seq.
Qed.

Lemma batches_sizes (l : list string) :
  Forall (fun c => 1 <= length c <= batchSize) (batches batchSize l).
Proof.
  induction l as [|l Hl IH] using batches_ind.
  - rewrite batches_nil. constructor.
  - rewrite batches_cons by assumption. constructor; [|exact IH].
    rewrite length_firstn. destruct l; [contradiction | cbn [length]; lia].
Qed.

Lemma batches_full (l : list string) :
  Forall (fun c => length c = batchSize) (removelast (batches batchSize l)).
Proof.
  induction l as [|l Hl IH] using batches_ind.
  - rewrite batches_nil. constructor.
  - rewrite batches_cons by assumption.
    destruct (skipn batchSize l) as [|y t] eqn:E.
    + rewrite batches_nil. constructor.
    + rewrite batches_cons in * by discriminate.
      cbn [removelast] in *. constructor; [|exact IH].
      rewrite length_firstn.
      assert (length (skipn batchSize l) = S (length t)) by now rewrite E.
      rewrite length_skipn in *. lia.
Qed.

Lemma firstn_seq_min (k start len : nat) :
  firstn k (seq start len) = seq start (Nat.min k len).
Proof.
  revert start len. induction k as [|k IH]; intros start len; [reflexivity|].
  destruct len as [|len]; [reflexivity|].
  cbn [seq firstn Nat.min]. now rewrite IH.
Qed.

Lemma batches_firstn (l : list string) (k : nat) :
  firstn k (batches batchSize l) =
  map (batchLinesAt batchSize l) (seq 0 (Nat.min k (ceilDiv (length l) batchSize))).
Proof.
  unfold batches. now rewrite firstn_map, firstn_seq_min.
Qed.

End ChunkFacts.

(* ================================================================== *)
(** ** Batch Classifier: the loop *)
(* ================================================================== *)

Section LeadingSuccesses.

Variable reply : nat -> Reply.

Lemma leadingSuccesses_le (remaining i : nat) :
  leadingSuccesses reply remaining i <= remaining.
Proof.
  revert i. induction remaining as [|n IH]; intros i; cbn; [lia|].
  destruct (succeeds (reply i)); [specialize (IH (S i))|]; lia.
Qed.

Lemma leadingSuccesses_all (remaining i : nat) :
  (forall j, i <= j < i + remaining -> succeeds (reply j) = true) ->
  leadingSuccesses reply remaining i = remaining.
Proof.
  revert i. induction remaining as [|n IH]; intros i H; cbn; [reflexivity|].
  rewrite H by lia. f_equal. apply IH. intros j Hj. apply H. lia.
Qed.

Lemma leadingSuccesses_first (remaining i j : nat) :
  i <= j < i + remaining -> succeeds (reply j) = false ->
  (forall m, i <= m < j -> succeeds (reply m) = true) ->
  leadingSuccesses reply remaining i = j - i.
Proof.
  revert i. induction remaining as [|n IH]; intros i Hj Hf Hs; [lia|].
  cbn. destruct (Nat.eq_dec i j) as [-> | Hne].
  - rewrite Hf. lia.
  - rewrite Hs by lia. rewrite IH; [lia | lia | assumption |].
    intros m Hm. apply Hs. lia.
Qed.

Lemma leadingSuccesses_prefix (remaining i m : nat) :
  m < leadingSuccesses reply remaining i -> succeeds (reply (i + m)) = true.
Proof.
  revert i m. induction remaining as [|n IH]; intros i m; cbn; [lia|].
  destruct (succeeds (reply i)) eqn:E; [|lia].
  destruct m as [|m]; [now rewrite Nat.add_0_r|].
  intros H. replace (i + S m) with (S i + m) by lia. apply IH. lia.
Qed.

Lemma leadingSuccesses_stop (remaining i : nat) :
  leadingSuccesses reply remaining i < remaining ->
  succeeds (reply (i + leadingSuccesses reply remaining i)) = false.
Proof.
  revert i. induction remaining as [|n IH]; intros i; cbn; [lia|].
  destruct (succeeds (reply i)) eqn:E.
  - intros H. replace (i + S _) with (S i + leadingSuccesses reply n (S i)) by lia.
    apply IH. lia.
  - now rewrite Nat.add_0_r.
Qed.

End LeadingSuccesses.

Section LoopFacts.

Variable ai : Service.
Variables batchSize totalBatches : nat.
Variable feedbackLines : list string.
Variable systemPrompt : string.

Let reply : nat -> Reply := replyAt ai batchSize feedbackLines systemPrompt.
Let request : nat -> Request := requestAt batchSize feedbackLines systemPrompt.
Let step := batchStep ai batchSize totalBatches feedbackLines systemPrompt.
Let loop := batchLoop ai batchSize totalBatches feedbackLines systemPrompt.

Lemma loopFrame_refl (st : Session) : loopFrame st st.
Proof. repeat split. Qed.

Lemma loopFrame_trans (a b c : Session) :
  loopFrame a b -> loopFrame b c -> loopFrame a c.
Proof.
  unfold loopFrame. intros H1 H2.
  repeat match goal with H : _ /\ _ |- _ => destruct H end.
  repeat split; congruence.
Qed.

(** One iteration: the request is logged, then either the reply's records
    are appended, each tagged, or the iteration throws. *)
Lemma batchStep_outcome (i : nat) (st : Session) :
  isNormal (step i st) = succeeds (reply i)
  /\ analysisResults (completionState (step i st)) =
     analysisResults st ++ (if succeeds (reply i) then replyItems (reply i) else [])
  /\ calls (completionState (step i st)) = calls st ++ [request i]
  /\ loopFrame st (completionState (step i st)).
Proof.
  unfold step, reply, request, batchStep, replyAt, requestAt.
  destruct (ai i _) as [| |[]|items]; cbn;
    try (repeat split; now rewrite ?app_nil_r).
  destruct items; cbn; repeat split; now rewrite ?app_nil_r.
Qed.

Lemma batchLoop_outcome (remaining i : nat) (st : Session) :
  let k := leadingSuccesses reply remaining i in
  isNormal (loop remaining i st) = Nat.eqb k remaining
  /\ analysisResults (completionState (loop remaining i st)) =
     analysisResults st ++ flat_map (fun j => replyItems (reply j)) (seq i k)
  /\ calls (completionState (loop remaining i st)) =
     calls st ++ map request (seq i (if Nat.ltb k remaining then S k else k))
  /\ loopFrame st (completionState (loop remaining i st)).
Proof.
  revert i st. induction remaining as [|n IH]; intros i st; cbn zeta.
  - cbn. rewrite !app_nil_r. split; [|split; [|split]]; try reflexivity.
    apply loopFrame_refl.
  - destruct (batchStep_outcome i st) as (Hn & Hr & Hc & Hf).
    unfold loop in *. cbn [batchLoop leadingSuccesses]. unfold step in *.
    destruct (batchStep ai batchSize totalBatches feedbackLines systemPrompt i st) as [st1 | st1]; cbn [isNormal completionState] in *;
      rewrite <- Hn in *.
    + specialize (IH (S i) st1). cbn zeta in IH.
      destruct IH as (IHn & IHr & IHc & IHf).
      split; [|split; [|split]].
      * exact IHn.
      * rewrite IHr, Hr. cbn [seq flat_map]. now rewrite <- app_assoc.
      * rewrite IHc, Hc.
        replace (Nat.ltb (S (leadingSuccesses reply n (S i))) (S n))
          with (Nat.ltb (leadingSuccesses reply n (S i)) n) by reflexivity.
        destruct (Nat.ltb (leadingSuccesses reply n (S i)) n);
          cbn [seq map]; now rewrite <- app_assoc.
      * exact (loopFrame_trans _ _ _ Hf IHf).
    + cbn. rewrite app_nil_r in *.
      split; [|split; [|split]]; try assumption; reflexivity.
Qed.

End LoopFacts.

(* ================================================================== *)
(** ** Batch Classifier: the whole handler *)
(* ================================================================== *)

Section HandlerFacts.

Variable batchSize : nat.
Variable ai : Service.
Variable st : Session.

Let lines : list string := feedbackLinesOf (JS.trim (feedbackInput st)).
Let sp : string := JS.trim (systemPromptInput st).
Let total : nat := ceilDiv (length lines) batchSize.
Let reply : nat -> Reply := replyAt ai batchSize lines sp.
Let k : nat := leadingSuccesses reply total 0.

Hypothesis input_present : JS.truthy (JS.trim (feedbackInput st)) = true.

Lemma analyzeWith_run :
  analyzeWith batchSize ai st =
  onFinally
    match batchLoop ai batchSize total lines sp total 0 (uiReset st) with
    | Normal st' => afterLoop st'
    | Thrown st' => onError st'
    end.
Proof.
  unfold analyzeWith. rewrite input_present. reflexivity.
Qed.

Lemma afterLoop_results (s : Session) :
  analysisResults (afterLoop s) = analysisResults s /\ calls (afterLoop s) = calls s.
Proof.
  unfold afterLoop, updateAndRenderStats, renderResultsTable.
  destruct (Nat.ltb 0 (length (analysisResults s))); [|split; reflexivity].
  destruct (Nat.eqb (length (analysisResults _)) 0);
    destruct (Nat.eqb (length (countLabels _)) 0);
    split; reflexivity.
Qed.

(** The calls the handler issues: one per batch, in order, up to and
    including the first one that fails. *)
Lemma analyzeWith_calls :
  calls (analyzeWith batchSize ai st) =
  calls st ++
  map (requestAt batchSize lines sp) (seq 0 (if Nat.ltb k total then S k else k)).
Proof.
  rewrite analyzeWith_run.
  destruct (batchLoop_outcome ai batchSize total lines sp total 0 (uiReset st))
    as (_ & _ & Hc & _).
  destruct (batchLoop _ _ _ _ _ _ _ _) as [s | s]; cbn [completionState] in Hc.
  - change (calls (onFinally (afterLoop s))) with (calls (afterLoop s)).
    rewrite (proj2 (afterLoop_results s)). exact Hc.
  - exact Hc.
Qed.

(** The records the session holds when the handler returns: those of the
    batches answered before the first failure, in order. *)
Lemma analyzeWith_results :
  analysisResults (analyzeWith batchSize ai st) =
  flat_map (fun i => replyItems (reply i)) (seq 0 k).
Proof.
  rewrite analyzeWith_run.
  destruct (batchLoop_outcome ai batchSize total lines sp total 0 (uiReset st))
    as (_ & Hr & _ & _).
  destruct (batchLoop _ _ _ _ _ _ _ _) as [s | s]; cbn [completionState] in Hr.
  - change (analysisResults (onFinally (afterLoop s)))
      with (analysisResults (afterLoop s)).
    rewrite (proj1 (afterLoop_results s)). exact Hr.
  - exact Hr.
Qed.

(** A failing call: the [catch] block runs on what the loop left. *)
Lemma analyzeWith_thrown :
  k < total ->
  exists s,
    batchLoop ai batchSize total lines sp total 0 (uiReset st) = Thrown s
    /\ loopFrame (uiReset st) s
    /\ analyzeWith batchSize ai st = onFinally (onError s).
Proof.
  intros Hk. rewrite analyzeWith_run.
  destruct (batchLoop_outcome ai batchSize total lines sp total 0 (uiReset st))
    as (Hn & _ & _ & Hf).
  fold reply in Hn. fold k in Hn.
  destruct (batchLoop _ _ _ _ _ _ _ _) as [s | s];
    cbn [isNormal completionState] in *.
  - symmetry in Hn. apply Nat.eqb_eq in Hn. lia.
  - exists s. repeat split; apply Hf.
Qed.

(** No failing call: the rest of the [try] block runs. *)
Lemma analyzeWith_normal :
  k = total ->
  exists s,
    batchLoop ai batchSize total lines sp total 0 (uiReset st) = Normal s
    /\ loopFrame (uiReset st) s
    /\ analyzeWith batchSize ai st = onFinally (afterLoop s).
Proof.
  intros Hk. rewrite analyzeWith_run.
  destruct (batchLoop_outcome ai batchSize total lines sp total 0 (uiReset st))
    as (Hn & _ & _ & Hf).
  fold reply in Hn. fold k in Hn.
  destruct (batchLoop _ _ _ _ _ _ _ _) as [s | s];
    cbn [isNormal completionState] in *.
  - exists s. repeat split; apply Hf.
  - rewrite Hk, Nat.eqb_refl in Hn. discriminate.
Qed.

End HandlerFacts.

(* ================================================================== *)
(** ** Batch Classifier: the properties *)
(* ================================================================== *)

Lemma firstFailure_leading (reply : nat -> Reply) (total j : nat) :
  firstFailureAt reply total j -> leadingSuccesses reply total 0 = j.
Proof.
  intros (Hj & Hf & Hs).
  rewrite (leadingSuccesses_first reply total 0 j); [lia | lia | assumption |].
  intros m Hm. apply Hs. lia.
Qed.

Lemma allSucceed_leading (reply : nat -> Reply) (total : nat) :
  allSucceed reply total -> leadingSuccesses reply total 0 = total.
Proof.
  intros H. apply leadingSuccesses_all. intros j Hj. apply H. lia.
Qed.

(** Every run either answers all batches or has a first failing batch. *)
Lemma run_cases (reply : nat -> Reply) (total : nat) :
  allSucceed reply total \/ exists j, firstFailureAt reply total j.
Proof.
  pose proof (leadingSuccesses_le reply total 0) as Hle.
  destruct (Nat.eq_dec (leadingSuccesses reply total 0) total) as [E | N].
  - left. intros i Hi.
    apply (leadingSuccesses_prefix reply total 0 i). lia.
  - right. exists (leadingSuccesses reply total 0). repeat split.
    + lia.
    + apply (leadingSuccesses_stop reply total 0). lia.
    + intros i Hi. now apply (leadingSuccesses_prefix reply total 0 i).
Qed.

(** C1, as amended: when the call of some batch [j] fails (it is rejected,
    its text does not parse, or the parsed value cannot be mapped), the
    handler stops there: no later batch is called, the status shows the error
    message with the error class, the table container shows the error
    paragraph, the results header and the label counts stay hidden and both
    export buttons stay disabled.  The [analysisResults] array is not
    cleared: it still holds the records of the batches before [j]. *)
Theorem classification_failure (batchSize : nat) (ai : Service) (st : Session)
  (j : nat) :
  JS.truthy (JS.trim (feedbackInput st)) = true ->
  firstFailureAt (runReply batchSize ai st) (runTotal batchSize st) j ->
  statusError (analyzeWith batchSize ai st) = true
  /\ statusMessage (analyzeWith batchSize ai st) = errorMessage
  /\ resultsTable (analyzeWith batchSize ai st) = ErrorParagraph
  /\ resultsHeaderHidden (analyzeWith batchSize ai st) = true
  /\ labelCountsHidden (analyzeWith batchSize ai st) = true
  /\ labelCountsSummary (analyzeWith batchSize ai st) = []
  /\ exportDisabled (analyzeWith batchSize ai st) = true
  /\ exportExplodedDisabled (analyzeWith batchSize ai st) = true
  /\ downloads (analyzeWith batchSize ai st) = downloads st
  /\ calls (analyzeWith batchSize ai st) =
     calls st ++ map (requestAt batchSize (runLines st) (runPrompt st)) (seq 0 (S j))
  /\ analysisResults (analyzeWith batchSize ai st) =
     flat_map (fun i => replyItems (runReply batchSize ai st i)) (seq 0 j).
Proof.
  intros Hin Hfail.
  pose proof (firstFailure_leading _ _ _ Hfail) as Hk.
  assert (Hlt : j < runTotal batchSize st) by apply Hfail.
  pose proof (analyzeWith_calls batchSize ai st Hin) as Hc.
  pose proof (analyzeWith_results batchSize ai st Hin) as Hr.
  destruct (analyzeWith_thrown batchSize ai st Hin) as (s & _ & Hf & Hrun).
  { unfold runReply, runTotal, runLines, runPrompt in *.
    unfold replyAt in *. cbv zeta. rewrite Hk. exact Hlt. }
  cbv zeta in Hc, Hr.
  unfold runReply, runTotal, runLines, runPrompt, replyAt in *.
  rewrite Hk in Hc, Hr.
  apply Nat.ltb_lt in Hlt. rewrite Hlt in Hc.
  destruct Hf as (_ & _ & _ & _ & Hh & He & Hx & _ & _ & Hs & Hl & Hd).
  rewrite Hc, Hr. rewrite Hrun.
  repeat split; try reflexivity; cbn; assumption.
Qed.

(** C1 fails as stated: with 251 lines the first batch is answered with
    one record and the call of the second is rejected; the handler reports
    the error, and the record of the first batch is still in
    [analysisResults]. *)
Lemma partial_results_remain :
  statusError (analyzeClick failingService (sessionWith longText "")) = true
  /\ length (calls (analyzeClick failingService (sessionWith longText ""))) = 2
  /\ analysisResults (analyzeClick failingService (sessionWith longText "")) =
     [mkLabeledFeedback "Great app!" ["Positive"] (Some false)].
Proof.
  vm_compute. repeat split.
Qed.

Lemma classification_failure_witness :
  statusError (analyzeWith BATCH_SIZE failingService (sessionWith longText "")) = true
  /\ statusMessage (analyzeWith BATCH_SIZE failingService (sessionWith longText ""))
     = errorMessage.
Proof.
  assert (Hin : JS.truthy (JS.trim (feedbackInput (sessionWith longText ""))) = true)
    by (vm_compute; reflexivity).
  assert (Hfail : firstFailureAt
                    (runReply BATCH_SIZE failingService (sessionWith longText ""))
                    (runTotal BATCH_SIZE (sessionWith longText "")) 1).
  { split; [vm_compute; lia|]. split; [reflexivity|].
    intros i Hi. assert (i = 0) by lia. subst i. reflexivity. }
  pose proof (classification_failure BATCH_SIZE failingService
                (sessionWith longText "") 1 Hin Hfail) as H.
  split; [apply H | apply (proj1 (proj2 H))].
Defined.

(** The log of calls of the loop, read against the chunks. *)
Lemma batchLoop_calls_chunks (batchSize : nat) (lines : list string) (ai : Service)
  (systemPrompt : string) (st : Session) :
  calls (completionState
           (batchLoop ai batchSize (ceilDiv (length lines) batchSize) lines
              systemPrompt (ceilDiv (length lines) batchSize) 0 st)) =
  calls st ++
  map (chunkRequest systemPrompt)
    (firstn (S (leadingSuccesses (replyAt ai batchSize lines systemPrompt)
                  (ceilDiv (length lines) batchSize) 0))
       (batches batchSize lines)).
Proof.
  destruct (batchLoop_outcome ai batchSize (ceilDiv (length lines) batchSize) lines
              systemPrompt (ceilDiv (length lines) batchSize) 0 st)
    as (_ & _ & Hc & _).
  rewrite Hc. f_equal. rewrite batches_firstn, map_map.
  pose proof (leadingSuccesses_le (replyAt ai batchSize lines systemPrompt)
                (ceilDiv (length lines) batchSize) 0) as Hle.
  destruct (Nat.ltb _ _) eqn:E.
  - apply Nat.ltb_lt in E. rewrite Nat.min_l by lia. reflexivity.
  - apply Nat.ltb_ge in E. rewrite Nat.min_r by lia.
    replace (leadingSuccesses _ _ 0) with (ceilDiv (length lines) batchSize) by lia.
    reflexivity.
Qed.

(** When no call fails, every chunk got exactly one call, in order. *)
Lemma batchLoop_calls_all (batchSize : nat) (lines : list string) (ai : Service)
  (systemPrompt : string) (st : Session) :
  allSucceed (replyAt ai batchSize lines systemPrompt)
    (ceilDiv (length lines) batchSize) ->
  calls (completionState
           (batchLoop ai batchSize (ceilDiv (length lines) batchSize) lines
              systemPrompt (ceilDiv (length lines) batchSize) 0 st)) =
  calls st ++ map (chunkRequest systemPrompt) (batches batchSize lines).
Proof.
  intros Hall.
  rewrite batchLoop_calls_chunks, (allSucceed_leading _ _ Hall), firstn_all2;
    [reflexivity|].
  rewrite batches_length. lia.
Qed.

(** The same for the page's handler, whose batch size is 250. *)
Lemma analyzeClick_calls (ai : Service) (st : Session) :
  JS.truthy (JS.trim (feedbackInput st)) = true ->
  calls (analyzeClick ai st) =
  calls st ++
  map (chunkRequest (runPrompt st))
    (firstn (S (leadingSuccesses (runReply BATCH_SIZE ai st)
                  (runTotal BATCH_SIZE st) 0))
       (batches BATCH_SIZE (runLines st))).
Proof.
  intros Hin. unfold analyzeClick.
  rewrite (analyzeWith_run BATCH_SIZE ai st Hin).
  pose proof (batchLoop_calls_chunks BATCH_SIZE (runLines st) ai (runPrompt st)
                (uiReset st)) as Hc.
  unfold runLines, runPrompt in *.
  destruct (batchLoop _ _ _ _ _ _ _ _) as [s | s]; cbn [completionState] in Hc.
  - change (calls (onFinally (afterLoop s))) with (calls (afterLoop s)).
    rewrite (proj2 (afterLoop_results s)). exact Hc.
  - exact Hc.
Qed.

(** The calls of the handler, read against the chunks of its lines. *)
Lemma analyzeWith_calls_chunks (batchSize : nat) (ai : Service) (st : Session) :
  JS.truthy (JS.trim (feedbackInput st)) = true ->
  calls (analyzeWith batchSize ai st) =
  calls st ++
  map (chunkRequest (runPrompt st))
    (firstn (S (leadingSuccesses (runReply batchSize ai st)
                  (runTotal batchSize st) 0))
       (batches batchSize (runLines st))).
Proof.
  intros Hin. rewrite (analyzeWith_run batchSize ai st Hin).
  pose proof (batchLoop_calls_chunks batchSize (runLines st) ai (runPrompt st)
                (uiReset st)) as Hc.
  unfold runReply, runTotal, runLines, runPrompt in *.
  destruct (batchLoop _ _ _ _ _ _ _ _) as [s | s]; cbn [completionState] in Hc.
  - change (calls (onFinally (afterLoop s))) with (calls (afterLoop s)).
    rewrite (proj2 (afterLoop_results s)). exact Hc.
  - exact Hc.
Qed.

Lemma chunkRequest_spelled (st : Session) (chunks : list (list string)) :
  map (chunkRequest (runPrompt st)) chunks =
  map (fun chunk =>
           mkRequest "gemini-2.5-flash"
             ("Analyze each line of the following customer feedback individually. Return a JSON array where each object corresponds to a single line of feedback from the input. Do not skip, merge, or alter any lines. Each object must contain two keys: 'feedback' (the original, unmodified text of the feedback line) and 'labels' (an array of relevant string labels, e.g., 'Bug Report', 'Feature Request')."
              ++ JS.nl ++ JS.nl ++ "---FEEDBACK---" ++ JS.nl
              ++ JS.join JS.nl chunk)
             (if JS.truthy (JS.trim (systemPromptInput st))
              then Some (JS.trim (systemPromptInput st)) else None)) chunks.
Proof.
  apply map_ext. intros chunk. reflexivity.
Qed.

(** C2: the analyze handler splits its lines into [ceil(N / batchSize)]
    consecutive chunks and calls the service once per chunk, in order.  For
    any lines, the chunks put end to end give back the lines, their number is
    the least that holds all lines, every chunk has between one and
    [batchSize] lines and every chunk but the last exactly [batchSize]; the
    page's batch size is 250.  The calls a click adds to the log are, in
    chunk order, the requests whose contents is the prompt followed by the
    lines of the chunk joined with line feeds; the call of a chunk is made
    only once the calls of all chunks before it were answered, so the log
    holds one call for each chunk when no call fails, and otherwise one for
    each chunk up to and including the first whose call fails. *)
Theorem batches_and_calls (batchSize : nat) (lines : list string) (ai : Service)
  (st : Session) :
  0 < batchSize ->
  JS.truthy (JS.trim (feedbackInput st)) = true ->
  concat (batches batchSize lines) = lines
  /\ length (batches batchSize lines) = ceilDiv (length lines) batchSize
  /\ length lines <= length (batches batchSize lines) * batchSize
  /\ length (batches batchSize lines) * batchSize < length lines + batchSize
  /\ Forall (fun c => 1 <= length c <= batchSize) (batches batchSize lines)
  /\ Forall (fun c => length c = batchSize) (removelast (batches batchSize lines))
  /\ analyzeClick ai st = analyzeWith 250 ai st
  /\ calls (analyzeWith batchSize ai st) =
     calls st ++
     map (fun chunk =>
            mkRequest "gemini-2.5-flash"
              ("Analyze each line of the following customer feedback individually. Return a JSON array where each object corresponds to a single line of feedback from the input. Do not skip, merge, or alter any lines. Each object must contain two keys: 'feedback' (the original, unmodified text of the feedback line) and 'labels' (an array of relevant string labels, e.g., 'Bug Report', 'Feature Request')."
               ++ JS.nl ++ JS.nl ++ "---FEEDBACK---" ++ JS.nl
               ++ JS.join JS.nl chunk)
              (if JS.truthy (JS.trim (systemPromptInput st))
               then Some (JS.trim (systemPromptInput st)) else None))
       (firstn (S (leadingSuccesses (runReply batchSize ai st)
                     (length (batches batchSize (runLines st))) 0))
          (batches batchSize (runLines st)))
  /\ (allSucceed (runReply batchSize ai st)
        (length (batches batchSize (runLines st))) ->
      calls (analyzeWith batchSize ai st) =
      calls st ++
      map (fun chunk =>
             mkRequest "gemini-2.5-flash"
               ("Analyze each line of the following customer feedback individually. Return a JSON array where each object corresponds to a single line of feedback from the input. Do not skip, merge, or alter any lines. Each object must contain two keys: 'feedback' (the original, unmodified text of the feedback line) and 'labels' (an array of relevant string labels, e.g., 'Bug Report', 'Feature Request')."
                ++ JS.nl ++ JS.nl ++ "---FEEDBACK---" ++ JS.nl
                ++ JS.join JS.nl chunk)
               (if JS.truthy (JS.trim (systemPromptInput st))
                then Some (JS.trim (systemPromptInput st)) else None))
        (batches batchSize (runLines st))).
Proof.
  intros HB Hin.
  pose proof (batches_length batchSize lines) as Hlen.
  pose proof (ceilDiv_spec batchSize HB (length lines)) as [Hlo Hhi].
  split; [now apply batches_concat|].
  split; [exact Hlen|].
  split; [now rewrite Hlen|].
  split; [now rewrite Hlen|].
  split; [now apply batches_sizes|].
  split; [now apply batches_full|].
  split; [reflexivity|].
  rewrite batches_length. fold (runTotal batchSize st).
  rewrite <- !chunkRequest_spelled.
  split; [now apply analyzeWith_calls_chunks|].
  intros Hall.
  rewrite (analyzeWith_calls_chunks batchSize ai st Hin).
  rewrite (allSucceed_leading _ _ Hall), firstn_all2; [reflexivity|].
  rewrite batches_length. unfold runTotal. lia.
Qed.

Lemma batches_and_calls_witness :
  concat (batches 2 ["a"; "b"; "c"]) = ["a"; "b"; "c"].
Proof.
  assert (Hin : JS.truthy (JS.trim (feedbackInput (sessionWith scenarioText "")))
                = true) by reflexivity.
  exact (proj1 (batches_and_calls 2 ["a"; "b"; "c"] scenarioService
                  (sessionWith scenarioText "") ltac:(lia) Hin)).
Defined.

(** The scenario through the handler: two chunks, two calls. *)
Example scenario_calls :
  calls (analyzeWith 2 scenarioService (sessionWith scenarioText "")) =
  [mkRequest "gemini-2.5-flash"
     (promptHeader ++ "Great app!" ++ JS.nl ++ "Crashes on load") None;
   mkRequest "gemini-2.5-flash" (promptHeader ++ "Needs dark mode") None].
Proof. reflexivity. Qed.






(** Every record the handler leaves in the session carries the flag
    [false], whether the run ended normally or not. *)
Lemma analyze_results_unflagged (batchSize : nat) (ai : Service) (st : Session) :
  JS.truthy (JS.trim (feedbackInput st)) = true ->
  Forall (fun r => isIncorrect r = Some false)
    (analysisResults (analyzeWith batchSize ai st)).
Proof.
  intros Hin. rewrite (analyzeWith_results batchSize ai st Hin).
  apply Forall_forall. intros r Hr. apply in_flat_map in Hr.
  destruct Hr as (i & _ & Hr).
  destruct (replyAt _ _ _ _ i); cbn [replyItems] in Hr; try contradiction.
  apply in_map_iff in Hr. destruct Hr as [x [<- _]]. reflexivity.
Qed.

(** With no text in the feedback box the handler does nothing. *)
Lemma analyze_empty_input (batchSize : nat) (ai : Service) (st : Session) :
  JS.truthy (JS.trim (feedbackInput st)) = false ->
  analyzeWith batchSize ai st = st.
Proof.
  intros H. unfold analyzeWith. now rewrite H.
Qed.

(* ================================================================== *)
(** ** Worked runs *)
(* ================================================================== *)

(** The blank line is dropped before the lines are split into batches. *)
Example scenario_lines :
  feedbackLinesOf (JS.trim scenarioText) =
  ["Great app!"; "Crashes on load"; "Needs dark mode"].
Proof. reflexivity. Qed.

Example scenario_batches :
  batches 2 ["Great app!"; "Crashes on load"; "Needs dark mode"] =
  [["Great app!"; "Crashes on load"]; ["Needs dark mode"]].
Proof. reflexivity. Qed.

(** Two batches, one record for the first and two for the second: three
    records in order, none flagged. *)
Example scenario_results :
  analysisResults (analyzeWith 2 scenarioService (sessionWith scenarioText "")) =
  [mkLabeledFeedback "Great app!" ["Positive"] (Some false);
   mkLabeledFeedback "Crashes on load" ["Bug Report"] (Some false);
   mkLabeledFeedback "Needs dark mode" ["Feature Request"] (Some false)].
Proof. reflexivity. Qed.

Example scenario_status :
  statusMessage (analyzeWith 2 scenarioService (sessionWith scenarioText "")) =
  "Analysis complete! 3 items processed."
  /\ exportDisabled (analyzeWith 2 scenarioService (sessionWith scenarioText ""))
     = false.
Proof. split; reflexivity. Qed.

Example scenario_second_call :
  map contents (calls (analyzeWith 2 scenarioService (sessionWith scenarioText "")))
  = [promptHeader ++ "Great app!" ++ JS.nl ++ "Crashes on load";
     promptHeader ++ "Needs dark mode"]%string.
Proof. reflexivity. Qed.

(** One call throws: the error is reported and no further call is made. *)
Example scenario_failure :
  statusMessage (analyzeWith 2 failingService (sessionWith scenarioText "")) =
  errorMessage
  /\ exportDisabled (analyzeWith 2 failingService (sessionWith scenarioText ""))
     = true
  /\ length (calls (analyzeWith 2 failingService (sessionWith scenarioText ""))) = 2.
Proof. repeat split; reflexivity. Qed.

Example long_text_batches :
  map (@length string) (batches BATCH_SIZE (feedbackLinesOf (JS.trim longText))) =
  [250; 1].
Proof. vm_compute. reflexivity. Qed.

Example aggregate_bug_twice : sortedLabels bugTwice = [("bug", 2)].
Proof. reflexivity. Qed.

(** The count map in first-seen order, then the stable sort: [perf] moves
    to the front, [ui] stays before [bug]. *)
Example aggregate_tied_map :
  countLabels tiedRecords = [("ui", 2); ("bug", 2); ("perf", 3); ("docs", 1)].
Proof. reflexivity. Qed.

Example aggregate_tied_sorted :
  sortedLabels tiedRecords = [("perf", 3); ("ui", 2); ("bug", 2); ("docs", 1)].
Proof. reflexivity. Qed.

Example aggregate_tied_sheet :
  countsData tiedRecords =
  [mkCountRow "perf" 3; mkCountRow "ui" 2; mkCountRow "bug" 2; mkCountRow "docs" 1].
Proof. reflexivity. Qed.

(** A label with white space after its hashes is counted under a key of
    its own, apart from the label it was meant to be. *)
Example aggregate_hash_space :
  sortedLabels [mkLabeledFeedback "r" ["# bug"; "bug"; "#bug"] None] =
  [("bug", 2); (" bug", 1)].
Proof. reflexivity. Qed.

Example exploded_tied :
  map eSingleLabel (explodedData tiedRecords) =
  ["UI"; "Bug"; "#"; "perf"; " bug "; "Docs"; "Perf"; ""; "#ui"; "PERF"]
  /\ map eIncorrectAnalysis (explodedData tiedRecords) =
     ["No"; "No"; "No"; "No"; "No"; "No"; "No"; "Yes"; "No"; "No"].
Proof. split; reflexivity. Qed.

Example compiled_tied :
  map cLabels (compiledData tiedRecords) =
  ["UI, Bug, #"; "perf,  bug , Docs, Perf"; ""; "#ui, PERF"].
Proof. reflexivity. Qed.

(** An edit of the labels of a row does change the records, and the
    summary follows. *)
Example labels_edit :
  map labels
    (analysisResults
       (labelsChange 0 "crash, #Crash ,, ui"
          (analyzeWith 2 scenarioService (sessionWith scenarioText "")))) =
  [["crash"; "#Crash"; "ui"]; ["Bug Report"]; ["Feature Request"]]
  /\ labelCountsSummary
       (labelsChange 0 "crash, #Crash ,, ui"
          (analyzeWith 2 scenarioService (sessionWith scenarioText ""))) =
     [("crash", 2); ("ui", 1); ("bug report", 1); ("feature request", 1)].
Proof. split; reflexivity. Qed.

Example incorrect_edit :
  map isIncorrect
    (analysisResults
       (incorrectChange 1 true
          (analyzeWith 2 scenarioService (sessionWith scenarioText "")))) =
  [Some false; Some true; Some false].
Proof. reflexivity. Qed.

(* ================================================================== *)
(** * Further properties of the code *)
(* ================================================================== *)

(** ** Lines of the feedback box *)

Section LineFacts.

Import JS.

Lemma LF_whitespace : isWhiteSpace LF = true.
Proof. reflexivity. Qed.

Lemma eqb_LF_whitespace (c : ascii) : Ascii.eqb c LF = true -> isWhiteSpace c = true.
Proof. intros H. apply Ascii.eqb_eq in H. now subst. Qed.

Lemma trimEnd_empty_iff (s : string) :
  trimEnd s = EmptyString <-> allWhiteSpace s = true.
Proof.
  induction s as [|c r IH]; cbn [trimEnd allWhiteSpace]; [tauto|].
  destruct (trimEnd r) as [|c' r'].
  - destruct (isWhiteSpace c); cbn [andb]; [tauto|].
    split; discriminate.
  - split; [discriminate|]. intros H. apply andb_true_iff in H.
    destruct H as [_ H]. apply IH in H. discriminate.
Qed.

Lemma allWhiteSpace_trimStart (s : string) :
  allWhiteSpace (trimStart s) = allWhiteSpace s.
Proof.
  induction s as [|c r IH]; [reflexivity|].
  cbn [trimStart allWhiteSpace]. destruct (isWhiteSpace c) eqn:E; [exact IH|].
  cbn [allWhiteSpace]. now rewrite E.
Qed.

(** A string trims to the empty string exactly when it is all white space. *)
Lemma truthy_trim (s : string) : truthy (trim s) = negb (allWhiteSpace s).
Proof.
  unfold trim. rewrite <- allWhiteSpace_trimStart.
  destruct (allWhiteSpace (trimStart s)) eqn:E.
  - apply trimEnd_empty_iff in E. now rewrite E.
  - destruct (trimEnd (trimStart s)) eqn:T; [|reflexivity].
    apply trimEnd_empty_iff in T. congruence.
Qed.

Lemma allWhiteSpace_trim (s : string) : allWhiteSpace (trim s) = allWhiteSpace s.
Proof.
  pose proof (truthy_trim s) as H.
  destruct (allWhiteSpace s) eqn:E; cbn [negb] in H.
  - destruct (trim s); [reflexivity | discriminate].
  - destruct (allWhiteSpace (trim s)) eqn:T; [|reflexivity].
    unfold trim in T. apply trimEnd_empty_iff in T.
    rewrite trimEnd_idem in T. unfold trim in H. rewrite T in H. discriminate.
Qed.

Lemma split_not_nil (sep : ascii) (s : string) : split sep s <> [].
Proof.
  destruct s as [|c r]; cbn [split]; [discriminate|].
  destruct (Ascii.eqb c sep); [discriminate|].
  destruct (split sep r); discriminate.
Qed.

Lemma split_cons_other (sep c : ascii) (r : string) :
  Ascii.eqb c sep = false ->
  exists h t, split sep r = h :: t /\ split sep (String c r) = String c h :: t.
Proof.
  intros E. cbn [split]. rewrite E.
  destruct (split sep r) as [|h t] eqn:S; [now apply split_not_nil in S|].
  now exists h, t.
Qed.

(** Splitting at a separator that stands between two texts. *)
Lemma split_app (sep : ascii) (a b : string) :
  split sep (a ++ String sep b) = split sep a ++ split sep b.
Proof.
  induction a as [|c a IH]; cbn [append split app].
  - now rewrite Ascii.eqb_refl.
  - destruct (Ascii.eqb c sep); [now rewrite IH|].
    rewrite IH. destruct (split sep a) as [|h t] eqn:S.
    + now apply split_not_nil in S.
    + reflexivity.
Qed.

Lemma split_no_sep (sep : ascii) (s : string) :
  includesChar sep s = false -> split sep s = [s].
Proof.
  induction s as [|c r IH]; [reflexivity|].
  cbn [includesChar split]. intros H. apply orb_false_iff in H.
  destruct H as [E H]. rewrite E, (IH H). reflexivity.
Qed.

Lemma split_pieces_free (sep : ascii) (s : string) :
  Forall (fun l => includesChar sep l = false) (split sep s).
Proof.
  induction s as [|c r IH]; cbn [split]; [repeat constructor|].
  destruct (Ascii.eqb c sep) eqn:E; [constructor; [reflexivity | exact IH]|].
  destruct (split sep r) as [|h t]; [repeat constructor; cbn; now rewrite E|].
  inversion IH; subst. constructor; [|assumption].
  cbn [includesChar]. rewrite E. assumption.
Qed.

Lemma allWhiteSpace_split (s : string) :
  allWhiteSpace s = forallb allWhiteSpace (split LF s).
Proof.
  induction s as [|c r IH]; [reflexivity|].
  cbn [allWhiteSpace split]. destruct (Ascii.eqb c LF) eqn:E.
  - rewrite (eqb_LF_whitespace c E). cbn [forallb allWhiteSpace andb]. exact IH.
  - rewrite IH. destruct (split LF r) as [|h t]; cbn [forallb allWhiteSpace].
    + now rewrite !andb_true_r.
    + now rewrite andb_assoc.
Qed.

Lemma feedbackLinesOf_filter (text : string) :
  feedbackLinesOf text =
  filter (fun line => negb (allWhiteSpace line)) (split LF text).
Proof.
  unfold feedbackLinesOf. apply filter_ext. intros l. apply truthy_trim.
Qed.

Lemma feedbackLinesOf_nil (text : string) :
  feedbackLinesOf text = [] <-> allWhiteSpace text = true.
Proof.
  rewrite feedbackLinesOf_filter, allWhiteSpace_split.
  induction (split LF text) as [|l ls IH]; cbn [filter forallb]; [tauto|].
  destruct (allWhiteSpace l); cbn [negb andb]; [exact IH|].
  split; discriminate.
Qed.

Lemma feedbackLinesOf_app (a b : string) :
  feedbackLinesOf (a ++ nl ++ b) = feedbackLinesOf a ++ feedbackLinesOf b.
Proof.
  unfold feedbackLinesOf, nl. cbn [append].
  now rewrite split_app, filter_app.
Qed.

Lemma feedbackLinesOf_single (l : string) :
  includesChar LF l = false -> truthy (trim l) = true -> feedbackLinesOf l = [l].
Proof.
  intros Hf Ht. unfold feedbackLinesOf. rewrite (split_no_sep LF l Hf).
  cbn [filter]. now rewrite Ht.
Qed.

Lemma runLines_not_nil (st : Session) :
  truthy (trim (feedbackInput st)) = true -> runLines st <> [].
Proof.
  intros H Hn. unfold runLines in Hn. apply feedbackLinesOf_nil in Hn.
  rewrite allWhiteSpace_trim in Hn. rewrite truthy_trim, Hn in H. discriminate.
Qed.

End LineFacts.

(** X1: the lines the handler works on.  No line is blank and none holds a
    line feed; and there is no line at all exactly when the text is white
    space throughout. *)
Theorem feedback_lines_clean (text : string) :
  Forall (fun line => JS.truthy (JS.trim line) = true
                      /\ includesChar JS.LF line = false)
    (feedbackLinesOf text)
  /\ (feedbackLinesOf text = [] <-> allWhiteSpace text = true).
Proof.
  split; [|apply feedbackLinesOf_nil].
  apply Forall_forall. intros l Hl. unfold feedbackLinesOf in Hl.
  apply filter_In in Hl. destruct Hl as [Hs Ht]. split; [exact Ht|].
  pose proof (split_pieces_free JS.LF text) as Hfree.
  rewrite Forall_forall in Hfree. now apply Hfree.
Qed.

(** X2: two texts put together with a line feed give the lines of the
    first followed by the lines of the second. *)
Theorem feedback_lines_concat (a b : string) :
  feedbackLinesOf (a ++ JS.nl ++ b) = feedbackLinesOf a ++ feedbackLinesOf b.
Proof. apply feedbackLinesOf_app. Qed.

(** X3: a click with text in the feedback box always calls the service:
    there is at least one batch, the first batch has a line, and its request
    is the first one logged. *)
Theorem run_makes_a_call (batchSize : nat) (ai : Service) (st : Session) :
  0 < batchSize ->
  JS.truthy (JS.trim (feedbackInput st)) = true ->
  1 <= runTotal batchSize st
  /\ batchLinesAt batchSize (runLines st) 0 <> []
  /\ exists rest,
       calls (analyzeWith batchSize ai st) =
       calls st ++ requestAt batchSize (runLines st) (runPrompt st) 0 :: rest.
Proof.
  intros HB Hin.
  pose proof (runLines_not_nil st Hin) as Hne.
  assert (Hlen : 1 <= length (runLines st))
    by (destruct (runLines st); [contradiction | cbn; lia]).
  assert (Htot : 1 <= runTotal batchSize st).
  { unfold runTotal.
    pose proof (ceilDiv_spec batchSize HB (length (runLines st))) as [H _].
    destruct (ceilDiv (length (runLines st)) batchSize); [cbn in H; lia | lia]. }
  split; [exact Htot|]. split.
  - rewrite (batchLinesAt_firstn batchSize HB). cbn [Nat.mul skipn].
    destruct (runLines st) as [|l ls]; [congruence|].
    destruct batchSize as [|b]; [lia|]. cbn [firstn]. discriminate.
  - pose proof (analyzeWith_calls batchSize ai st Hin) as Hc. cbv zeta in Hc.
    fold (runLines st) in Hc. fold (runPrompt st) in Hc.
    fold (runTotal batchSize st) in Hc.
    set (k := leadingSuccesses _ _ 0) in Hc.
    assert (Hk : k <= runTotal batchSize st) by apply leadingSuccesses_le.
    destruct (Nat.ltb k (runTotal batchSize st)) eqn:E.
    + cbn [seq map] in Hc. eexists. exact Hc.
    + apply Nat.ltb_ge in E. destruct k as [|k']; [lia|].
      cbn [seq map] in Hc. eexists. exact Hc.
Qed.

Lemma run_makes_a_call_witness :
  1 <= runTotal 2 (sessionWith scenarioText "").
Proof.
  apply (run_makes_a_call 2 scenarioService (sessionWith scenarioText ""));
    [lia | reflexivity].
Defined.

(** X4: a feedback box holding nothing but white space.  The analyze
    button is disabled by [checkInputs], and a click, should one arrive,
    changes nothing and calls nothing. *)
Theorem blank_input_ignored (batchSize : nat) (ai : Service) (st : Session) :
  allWhiteSpace (feedbackInput st) = true ->
  analyzeWith batchSize ai st = st
  /\ analyzeDisabled (checkInputs st) = true.
Proof.
  intros H. unfold analyzeWith, checkInputs.
  rewrite truthy_trim, H. split; reflexivity.
Qed.

Lemma blank_input_ignored_witness :
  analyzeWith 250 failingService (sessionWith "  " "") = sessionWith "  " "".
Proof.
  apply (blank_input_ignored 250 failingService (sessionWith "  " "")).
  reflexivity.
Defined.

(** ** From an uploaded sheet to the lines *)

Section UploadFacts.

Import JS.

Lemma trim_fixed_start (t : string) : trim t = t -> startsWithWhiteSpace t = false.
Proof.
  destruct t as [|c r]; [reflexivity|]. cbn [startsWithWhiteSpace].
  destruct (isWhiteSpace c) eqn:E; [|reflexivity].
  unfold trim. cbn [trimStart]. rewrite E. intros H.
  pose proof (trimEnd_length (trimStart r)) as H1.
  pose proof (trimStart_length r) as H2.
  rewrite H in H1. cbn [String.length] in H1. lia.
Qed.

Lemma trim_fixed_end (t : string) : trim t = t -> trimEnd t = t.
Proof.
  intros H. pose proof (trimStart_fixed t (trim_fixed_start t H)) as Hs.
  unfold trim in H. now rewrite Hs in H.
Qed.

Lemma trimEnd_app (x y : string) :
  y <> EmptyString -> trimEnd y = y -> trimEnd (x ++ y) = (x ++ y)%string.
Proof.
  intros Hy Hf. induction x as [|c x IH]; [exact Hf|].
  cbn [append trimEnd]. rewrite IH.
  destruct (x ++ y)%string eqn:E; [|reflexivity].
  destruct x; [cbn in E; congruence | discriminate].
Qed.

Lemma join_cons2 (sep x y : string) (r : list string) :
  join sep (x :: y :: r) = (x ++ sep ++ join sep (y :: r))%string.
Proof. reflexivity. Qed.

Lemma join_not_empty (sep x : string) (r : list string) :
  x <> EmptyString -> join sep (x :: r) <> EmptyString.
Proof.
  intros Hx. destruct r as [|y r]; [exact Hx|].
  rewrite join_cons2. destruct x; [congruence | discriminate].
Qed.

Lemma join_starts (sep x : string) (r : list string) :
  x <> EmptyString ->
  startsWithWhiteSpace (join sep (x :: r)) = startsWithWhiteSpace x.
Proof.
  intros Hx. destruct r as [|y r]; [reflexivity|].
  rewrite join_cons2. destruct x; [congruence | reflexivity].
Qed.

Lemma trimEnd_join (ts : list string) :
  Forall (fun t => trimEnd t = t /\ t <> EmptyString) ts ->
  trimEnd (join nl ts) = join nl ts.
Proof.
  induction ts as [|x r IH]; intros H; [reflexivity|].
  inversion H as [|? ? [Hx Hxne] Hr]; subst.
  destruct r as [|y r]; [exact Hx|].
  rewrite join_cons2.
  assert (Hj : join nl (y :: r) <> EmptyString).
  { apply join_not_empty. inversion Hr as [|? ? [_ Hy] _]. exact Hy. }
  apply trimEnd_app; [unfold nl; discriminate|].
  apply trimEnd_app; [exact Hj | now apply IH].
Qed.

Lemma trim_join (ts : list string) :
  Forall (fun t => trim t = t /\ t <> EmptyString) ts ->
  trim (join nl ts) = join nl ts.
Proof.
  intros H. destruct ts as [|x r]; [reflexivity|].
  inversion H as [|? ? [Hx Hxne] Hr]; subst.
  unfold trim. rewrite trimStart_fixed.
  - apply trimEnd_join. eapply Forall_impl; [|exact H].
    cbn. intros t [Ht Hne]. split; [now apply trim_fixed_end | exact Hne].
  - rewrite join_starts by assumption. now apply trim_fixed_start.
Qed.

Lemma feedbackLinesOf_join (ts : list string) :
  Forall (fun t => includesChar LF t = false /\ truthy (trim t) = true) ts ->
  feedbackLinesOf (join nl ts) = ts.
Proof.
  induction ts as [|x r IH]; intros H; [reflexivity|].
  inversion H as [|? ? [Hf Ht] Hr]; subst.
  destruct r as [|y r]; [now apply feedbackLinesOf_single|].
  rewrite join_cons2, feedbackLinesOf_app, IH by assumption.
  now rewrite feedbackLinesOf_single.
Qed.

Lemma keptCells_nonblank (json : list (list Cell)) :
  Forall (fun t => truthy (trim t) = true) (keptCells json).
Proof.
  unfold keptCells. apply Forall_forall. intros t Ht.
  apply in_map_iff in Ht. destruct Ht as [cell [<- Hc]].
  apply filter_In in Hc. destruct Hc as [_ Hk].
  destruct cell; cbn in *; try discriminate. exact Hk.
Qed.

Lemma nonblank_not_empty (t : string) : truthy (trim t) = true -> t <> EmptyString.
Proof. intros H ->. discriminate. Qed.

End UploadFacts.

Lemma includesChar_append (c : ascii) (a b : string) :
  includesChar c (a ++ b) = includesChar c a || includesChar c b.
Proof.
  induction a as [|d a IH]; [reflexivity|].
  cbn [append includesChar]. now rewrite IH, orb_assoc.
Qed.

Lemma includesChar_join (c : ascii) (sep : string) (ts : list string) :
  includesChar c sep = false ->
  Forall (fun t => includesChar c t = false) ts ->
  includesChar c (JS.join sep ts) = false.
Proof.
  intros Hsep. induction ts as [|x r IH]; intros H; [reflexivity|].
  inversion H as [|? ? Hx Hr]; subst.
  destruct r as [|y r]; [exact Hx|].
  rewrite join_cons2, !includesChar_append, Hx, Hsep, (IH Hr). reflexivity.
Qed.

(** A value without a carriage return is read back as it was assigned. *)
Lemma normalizeNewlines_fixed (s : string) :
  includesChar CR s = false -> normalizeNewlines s = s.
Proof.
  induction s as [|c r IH]; [reflexivity|].
  cbn [includesChar normalizeNewlines]. intros H. apply orb_false_iff in H.
  destruct H as [E H]. rewrite E, (IH H). reflexivity.
Qed.

(** X5: from an uploaded sheet to the lines that are analyzed.  The kept
    cells of the first column are never blank; and when each of them is a
    trimmed text without a line feed and without a carriage return, the
    feedback box reads back the column as it was written, and the lines the
    analyze handler works on after the upload are exactly those cells, in
    sheet order. *)
Theorem excel_column_lines (json : list (list Cell)) :
  Forall (fun t => JS.trim t = t /\ includesChar JS.LF t = false
                   /\ includesChar CR t = false) (keptCells json) ->
  Forall (fun t => JS.truthy (JS.trim t) = true) (keptCells json)
  /\ uploadedValue json = feedbackColumn json
  /\ JS.trim (uploadedValue json) = uploadedValue json
  /\ feedbackLinesOf (JS.trim (uploadedValue json)) = keptCells json.
Proof.
  intros H. pose proof (keptCells_nonblank json) as Hnb.
  assert (Hu : uploadedValue json = feedbackColumn json).
  { unfold uploadedValue, feedbackColumn. apply normalizeNewlines_fixed.
    apply includesChar_join; [reflexivity|].
    eapply Forall_impl; [|exact H]. cbn. tauto. }
  assert (Ht : JS.trim (feedbackColumn json) = feedbackColumn json).
  { unfold feedbackColumn. apply trim_join.
    rewrite Forall_forall in *. intros t Hin. split; [now apply H|].
    apply nonblank_not_empty. now apply Hnb. }
  split; [exact Hnb|]. split; [exact Hu|]. rewrite Hu. split; [exact Ht|].
  rewrite Ht. unfold feedbackColumn. apply feedbackLinesOf_join.
  rewrite Forall_forall in *. intros t Hin. split; [now apply H | now apply Hnb].
Qed.

Lemma excel_column_lines_witness :
  feedbackLinesOf
    (JS.trim (uploadedValue
                [[CellValue "Great app!"; CellValue "x"]; []; [CellNull];
                 [CellValue "  "]; [CellValue "Needs dark mode"]]))
  = ["Great app!"; "Needs dark mode"].
Proof.
  refine (proj2 (proj2 (proj2 (excel_column_lines
           [[CellValue "Great app!"; CellValue "x"]; []; [CellNull];
            [CellValue "  "]; [CellValue "Needs dark mode"]] _)))).
  repeat constructor.
Defined.

(** A cell that holds a carriage return is read back with a line feed in
    its place, and so comes out as two lines. *)
Example upload_carriage_return :
  feedbackLinesOf
    (JS.trim (uploadedValue [[CellValue (String "a" (String CR "b"))]]))
  = ["a"; "b"].
Proof. reflexivity. Qed.

(** ** Label Normalizer: what it ignores and what it returns *)

Section NormalizerMore.

Import JS.

Lemma startsWithWhiteSpace_trimStart (s : string) :
  startsWithWhiteSpace (trimStart s) = false.
Proof.
  induction s as [|c r IH]; [reflexivity|].
  cbn [trimStart]. destruct (isWhiteSpace c) eqn:E; [exact IH|].
  cbn [startsWithWhiteSpace]. exact E.
Qed.

Lemma startsWithWhiteSpace_trimEnd (s : string) :
  startsWithWhiteSpace s = false -> startsWithWhiteSpace (trimEnd s) = false.
Proof.
  destruct s as [|c r]; [reflexivity|].
  cbn [startsWithWhiteSpace trimEnd]. intros H.
  destruct (trimEnd r); [now rewrite H | exact H].
Qed.

Lemma trim_idem (s : string) : trim (trim s) = trim s.
Proof.
  unfold trim at 1. rewrite trimStart_fixed.
  - unfold trim. apply trimEnd_idem.
  - unfold trim. apply startsWithWhiteSpace_trimEnd, startsWithWhiteSpace_trimStart.
Qed.

Lemma trimStart_toLowerCase (s : string) :
  trimStart (toLowerCase s) = toLowerCase (trimStart s).
Proof.
  induction s as [|c r IH]; [reflexivity|].
  cbn [toLowerCase trimStart]. rewrite isWhiteSpace_lowerChar.
  destruct (isWhiteSpace c); [exact IH | reflexivity].
Qed.

Lemma trim_toLowerCase (s : string) : trim (toLowerCase s) = toLowerCase (trim s).
Proof.
  unfold trim. now rewrite trimStart_toLowerCase, trimEnd_toLowerCase.
Qed.

Lemma trim_hash (y : string) :
  startsWithWhiteSpace y = false ->
  trim (String "#" y) = String "#" (trim y).
Proof.
  intros H. unfold trim. rewrite (trimStart_fixed y H).
  rewrite (trimStart_fixed (String "#" y)) by reflexivity.
  cbn [trimEnd]. destruct (trimEnd y); reflexivity.
Qed.

Lemma startsWithHash_replaceLeadingHashes (s : string) :
  startsWithHash (replaceLeadingHashes s) = false.
Proof.
  induction s as [|c r IH]; [reflexivity|].
  cbn [replaceLeadingHashes]. destruct (Ascii.eqb c "#") eqn:E; [exact IH|].
  cbn [startsWithHash]. exact E.
Qed.

End NormalizerMore.

(** X6: labels that differ only in case, in surrounding white space or in
    hashes put before the first character normalize to the same string. *)
Theorem normalizeLabel_insensitive (x : string) :
  normalizeLabel (JS.trim x) = normalizeLabel x
  /\ normalizeLabel (JS.toLowerCase x) = normalizeLabel x
  /\ normalizeLabel (String "#" (JS.trimStart x)) = normalizeLabel x.
Proof.
  unfold normalizeLabel. split; [now rewrite trim_idem|]. split.
  - now rewrite trim_toLowerCase, toLowerCase_idem.
  - rewrite trim_hash by apply startsWithWhiteSpace_trimStart.
    replace (JS.trim (JS.trimStart x)) with (JS.trim x).
    + reflexivity.
    + unfold JS.trim. rewrite (trimStart_fixed (JS.trimStart x)); [reflexivity|].
      apply startsWithWhiteSpace_trimStart.
Qed.

(** X7: the normalized form never starts with a hash, never ends in white
    space, is unchanged by lower-casing, and is no longer than the trimmed,
    lower-cased label it is cut from. *)
Theorem normalizeLabel_normal_form (x : string) :
  startsWithHash (normalizeLabel x) = false
  /\ JS.trimEnd (normalizeLabel x) = normalizeLabel x
  /\ JS.toLowerCase (normalizeLabel x) = normalizeLabel x
  /\ String.length (normalizeLabel x)
     <= String.length (JS.toLowerCase (JS.trim x)).
Proof.
  split; [apply startsWithHash_replaceLeadingHashes|].
  split; [apply normalizeLabel_no_trailing|].
  split; [apply normalizeLabel_lower|].
  unfold normalizeLabel. apply replaceLeadingHashes_length.
Qed.

(** ** Aggregator: the contents of the counts *)

Section CountsMore.

Lemma tally_keys (l : list string) : map fst (tally l) = firstSeen l.
Proof.
  unfold tally. rewrite map_map. cbn [fst]. apply map_id.
Qed.

Lemma occurrences_positive_In (x : string) (l : list string) :
  1 <= occurrences x l -> In x l.
Proof.
  intros H. apply mem_In. destruct (mem x l) eqn:E; [reflexivity|].
  rewrite (occurrences_absent x l E) in H. lia.
Qed.

Lemma In_tally (l : list string) (k : string) (n : nat) :
  In (k, n) (tally l) <-> n = occurrences k l /\ 1 <= n.
Proof.
  unfold tally. rewrite in_map_iff. split.
  - intros [x [E Hx]]. injection E as -> <-. split; [reflexivity|].
    apply occurrences_present. now apply firstSeen_In.
  - intros [-> Hn]. exists k. split; [reflexivity|].
    apply firstSeen_In. now apply occurrences_positive_In.
Qed.

Lemma In_countedLabels (records : list LabeledFeedback) (k : string) :
  In k (countedLabels records) <->
  k <> EmptyString
  /\ exists label, In label (allLabels records) /\ normalizeLabel label = k.
Proof.
  unfold countedLabels, allLabels. rewrite in_flat_map. split.
  - intros [item [Hi Hk]]. apply filter_In in Hk. destruct Hk as [Hk Ht].
    apply in_map_iff in Hk. destruct Hk as [label [<- Hl]]. split.
    + now apply truthy_iff.
    + exists label. split; [|reflexivity]. apply in_flat_map. now exists item.
  - intros [Hne [label [Hl <-]]]. apply in_flat_map in Hl.
    destruct Hl as [item [Hi Hl]]. exists item. split; [exact Hi|].
    apply filter_In. split; [now apply in_map | now apply truthy_iff].
Qed.

Lemma occurrences_perm (x : string) (l l' : list string) :
  Permutation l l' -> occurrences x l = occurrences x l'.
Proof.
  unfold occurrences. induction 1; cbn [filter].
  - reflexivity.
  - destruct (String.eqb x x0); cbn [length]; congruence.
  - destruct (String.eqb x x0), (String.eqb x y); reflexivity.
  - congruence.
Qed.

Lemma tally_perm (l l' : list string) :
  Permutation l l' -> Permutation (tally l) (tally l').
Proof.
  intros H. unfold tally.
  rewrite (map_ext (fun x => (x, occurrences x l)) (fun x => (x, occurrences x l')))
    by (intros x; now rewrite (occurrences_perm x l l' H)).
  apply Permutation_map. apply NoDup_Permutation; try apply firstSeen_NoDup.
  intros x. rewrite !firstSeen_In. split; apply Permutation_in;
    [exact H | now apply Permutation_sym].
Qed.

End CountsMore.

(** X8: what the label counts hold.  Every key occurs once; the keys are
    the non-empty normalized forms of the labels of the records; and the
    count beside a key is the number of labels that normalize to it, which is
    at least one. *)
Theorem label_counts_contents (records : list LabeledFeedback) :
  NoDup (map fst (sortedLabels records))
  /\ (forall k n, In (k, n) (sortedLabels records) <->
                  n = occurrences k (countedLabels records) /\ 1 <= n)
  /\ (forall k, In k (map fst (sortedLabels records)) <->
                k <> EmptyString
                /\ exists label, In label (allLabels records)
                                 /\ normalizeLabel label = k).
Proof.
  pose proof (sortedLabels_perm records) as Hp.
  rewrite countLabels_tally in Hp.
  split; [|split].
  - apply (Permutation_NoDup (l := map fst (tally (countedLabels records)))).
    + apply Permutation_sym, Permutation_map, Hp.
    + rewrite tally_keys. apply firstSeen_NoDup.
  - intros k n. rewrite <- In_tally. split; apply Permutation_in;
      [exact Hp | now apply Permutation_sym].
  - intros k. rewrite <- In_countedLabels.
    rewrite <- (firstSeen_In (countedLabels records) k).
    rewrite <- (tally_keys (countedLabels records)).
    split; apply Permutation_in; apply Permutation_map;
      [exact Hp | now apply Permutation_sym].
Qed.

(** X9: the counts do not depend on the order of the records: for a
    rearranged sequence of records the summary and the Label Counts sheet
    hold the same entries, at most in another order. *)
Theorem label_counts_order_independent (records records' : list LabeledFeedback) :
  Permutation records records' ->
  Permutation (sortedLabels records) (sortedLabels records')
  /\ Permutation (countsData records) (countsData records').
Proof.
  intros H.
  assert (Hs : Permutation (sortedLabels records) (sortedLabels records')).
  { eapply perm_trans; [apply sortedLabels_perm|].
    eapply perm_trans; [|apply Permutation_sym, sortedLabels_perm].
    rewrite !countLabels_tally. apply tally_perm.
    unfold countedLabels. now apply Permutation_flat_map. }
  split; [exact Hs|].
  rewrite !countsData_sortedLabels. now apply Permutation_map.
Qed.

Lemma label_counts_order_independent_witness :
  Permutation (sortedLabels [greatApp; crashes]) (sortedLabels [crashes; greatApp]).
Proof.
  apply (label_counts_order_independent [greatApp; crashes] [crashes; greatApp]).
  apply perm_swap.
Defined.

Lemma exploded_countable (item : LabeledFeedback) :
  length (filter (fun r => JS.truthy (normalizeLabel (eSingleLabel r)))
            (explodedRowsOf item)) =
  length (filter JS.truthy (map normalizeLabel (labels item))).
Proof.
  unfold explodedRowsOf. destruct (labels item) as [|l ls] eqn:E; [reflexivity|].
  clear E. generalize (l :: ls). intros xs.
  induction xs as [|x xs IH]; [reflexivity|].
  cbn [map filter eSingleLabel].
  destruct (JS.truthy (normalizeLabel x)); cbn [length]; now rewrite IH.
Qed.

(** X10: the sheets of the detailed export agree: the counts of the Label
    Counts sheet add up to the number of rows of the Exploded sheet whose
    Single Label is counted, that is, normalizes to a non-empty string. *)
Theorem counts_match_exploded_rows (records : list LabeledFeedback) :
  sumCountRows (countsData records) =
  length (filter (fun r => JS.truthy (normalizeLabel (eSingleLabel r)))
            (explodedData records)).
Proof.
  rewrite countsData_sum, explodedData_flat_map.
  induction records as [|r rs IH]; [reflexivity|].
  rewrite countedLabels_cons. cbn [flat_map].
  rewrite filter_app, !length_app, IH, exploded_countable. reflexivity.
Qed.

(** ** Edits of the results table *)

Section EditFacts.

Import JS.

Lemma updateAt_length {A : Type} (i : nat) (f : A -> A) (l : list A) :
  length (updateAt i f l) = length l.
Proof.
  revert i. induction l as [|x r IH]; intros [|i]; cbn; congruence.
Qed.

Lemma map_updateAt_same {A B : Type} (p : A -> B) (i : nat) (f : A -> A)
  (l : list A) :
  (forall x, p (f x) = p x) -> map p (updateAt i f l) = map p l.
Proof.
  intros H. revert i. induction l as [|x r IH]; intros [|i]; cbn;
    try reflexivity; [now rewrite H | now rewrite IH].
Qed.

Lemma map_updateAt_const {A B : Type} (p : A -> B) (v : B) (i : nat)
  (f : A -> A) (l : list A) :
  (forall x, p (f x) = v) ->
  map p (updateAt i f l) = updateAt i (fun _ => v) (map p l).
Proof.
  intros H. revert i. induction l as [|x r IH]; intros [|i]; cbn;
    try reflexivity; [now rewrite H | now rewrite IH].
Qed.

Lemma nth_error_updateAt_other {A : Type} (i j : nat) (f : A -> A) (l : list A) :
  j <> i -> nth_error (updateAt i f l) j = nth_error l j.
Proof.
  revert i j. induction l as [|x r IH]; intros [|i] [|j] H; cbn;
    try reflexivity; [congruence | apply IH; congruence].
Qed.

Lemma nth_updateAt_const {A : Type} (v d : A) (i : nat) (l : list A) :
  i < length l -> nth i (updateAt i (fun _ => v) l) d = v.
Proof.
  revert i. induction l as [|x r IH]; intros [|i] H; cbn in *;
    try lia; [reflexivity | apply IH; lia].
Qed.

Lemma includesChar_trimStart (c : ascii) (s : string) :
  includesChar c s = false -> includesChar c (trimStart s) = false.
Proof.
  induction s as [|d r IH]; [reflexivity|].
  cbn [includesChar trimStart]. intros H. apply orb_false_iff in H.
  destruct H as [E H]. destruct (isWhiteSpace d); [now apply IH|].
  cbn [includesChar]. now rewrite E, H.
Qed.

Lemma includesChar_trimEnd (c : ascii) (s : string) :
  includesChar c s = false -> includesChar c (trimEnd s) = false.
Proof.
  induction s as [|d r IH]; [reflexivity|].
  cbn [includesChar trimEnd]. intros H. apply orb_false_iff in H.
  destruct H as [E H]. specialize (IH H).
  destruct (trimEnd r) as [|d' r'].
  - destruct (isWhiteSpace d); [reflexivity|]. cbn [includesChar]. now rewrite E.
  - cbn [includesChar] in *. now rewrite E, IH.
Qed.

(** The labels read from a comma separated text. *)
Lemma parsed_plain (value : string) :
  Forall plainLabel (filter truthy (map trim (split COMMA value))).
Proof.
  apply Forall_forall. intros l Hl. apply filter_In in Hl.
  destruct Hl as [Hl Ht]. apply in_map_iff in Hl. destruct Hl as [p [<- Hp]].
  pose proof (split_pieces_free COMMA value) as Hfree.
  rewrite Forall_forall in Hfree. specialize (Hfree p Hp).
  split; [apply trim_idem|]. split.
  - intros E. rewrite E in Ht. discriminate.
  - unfold trim. now apply includesChar_trimEnd, includesChar_trimStart.
Qed.

Lemma parse_space (s : string) :
  filter truthy (map trim (split COMMA (String " " s))) =
  filter truthy (map trim (split COMMA s)).
Proof.
  destruct (split_cons_other COMMA " " s eq_refl) as (h & t & Hs & Hc).
  rewrite Hc, Hs. cbn [map filter].
  replace (trim (String " " h)) with (trim h) by reflexivity. reflexivity.
Qed.

(** Reading back the text the table shows for a record's labels. *)
Lemma parse_join (ls : list string) :
  Forall plainLabel ls ->
  filter truthy (map trim (split COMMA (join ", " ls))) = ls.
Proof.
  induction ls as [|x r IH]; intros H; [reflexivity|].
  inversion H as [|? ? (Ht & Hne & Hc) Hr]; subst.
  assert (Hx : filter truthy (map trim (split COMMA x)) = [x]).
  { rewrite (split_no_sep COMMA x Hc). cbn [map filter]. rewrite Ht.
    destruct x; [congruence | reflexivity]. }
  destruct r as [|y r]; [exact Hx|].
  rewrite join_cons2.
  change (", " ++ join ", " (y :: r))%string
    with (String COMMA (String " " (join ", " (y :: r)))).
  rewrite split_app, map_app, filter_app, Hx, parse_space, (IH Hr).
  reflexivity.
Qed.

Lemma labelsChange_results (i : nat) (value : string) (st : Session) :
  analysisResults (labelsChange i value st) =
  if Nat.ltb i (length (analysisResults st)) then
    updateAt i
      (fun item => mkLabeledFeedback (feedback item)
                     (filter truthy (map trim (split COMMA value)))
                     (isIncorrect item))
      (analysisResults st)
  else analysisResults st.
Proof.
  unfold labelsChange. destruct (Nat.ltb i (length (analysisResults st)));
    [|reflexivity].
  now rewrite (proj2 (proj2 (updateAndRenderStats_summary _))).
Qed.

Lemma incorrectChange_results (i : nat) (checked : bool) (st : Session) :
  analysisResults (incorrectChange i checked st) =
  if Nat.ltb i (length (analysisResults st)) then
    updateAt i
      (fun item => mkLabeledFeedback (feedback item) (labels item) (Some checked))
      (analysisResults st)
  else analysisResults st.
Proof.
  unfold incorrectChange. destruct (Nat.ltb i (length (analysisResults st)));
    reflexivity.
Qed.

Lemma labelsChange_labels (i : nat) (value : string) (st : Session) :
  i < length (analysisResults st) ->
  nth i (map labels (analysisResults (labelsChange i value st))) [] =
  filter truthy (map trim (split COMMA value)).
Proof.
  intros Hi. rewrite labelsChange_results.
  apply Nat.ltb_lt in Hi as Hb. rewrite Hb.
  rewrite (map_updateAt_const labels (filter truthy (map trim (split COMMA value))))
    by reflexivity.
  apply nth_updateAt_const. now rewrite length_map.
Qed.

End EditFacts.

(** X11: labels typed into a comma separated box.  Whatever the text, the
    labels stored for the edited row, and the custom labels of the
    single-call version, are trimmed, not empty and without a comma. *)
Theorem typed_labels_plain (value : string) (i : nat) (st : Session) :
  Forall plainLabel (customLabelsOf value)
  /\ Forall plainLabel
       (nth i (map labels (analysisResults (labelsChange i value st))) []).
Proof.
  split.
  - unfold customLabelsOf. cbv zeta.
    destruct (JS.truthy (JS.trim value)); [apply parsed_plain | constructor].
  - destruct (Nat.lt_ge_cases i (length (analysisResults st))) as [Hi | Hi].
    + rewrite labelsChange_labels by assumption. apply parsed_plain.
    + rewrite labelsChange_results.
      apply Nat.ltb_ge in Hi as Hb. rewrite Hb.
      rewrite nth_overflow by now rewrite length_map. constructor.
Qed.

(** X12: the labels box round trip.  The table shows a record's labels
    joined with a comma and a space; when the labels are trimmed, not empty
    and without a comma, a change event that carries this very text stores
    the same labels again. *)
Theorem labels_box_round_trip (i : nat) (ls : list string) (st : Session) :
  i < length (analysisResults st) ->
  Forall plainLabel ls ->
  nth i (map labels (analysisResults (labelsChange i (JS.join ", " ls) st))) []
  = ls.
Proof.
  intros Hi Hls. rewrite labelsChange_labels by assumption.
  now apply parse_join.
Qed.

Lemma labels_box_round_trip_witness :
  nth 0 (map labels
           (analysisResults
              (labelsChange 0 (JS.join ", " ["Bug Report"; "ui"])
                 (analyzeWith 2 scenarioService (sessionWith scenarioText "")))))
    []
  = ["Bug Report"; "ui"].
Proof.
  assert (Hi : 0 < length (analysisResults
                            (analyzeWith 2 scenarioService
                               (sessionWith scenarioText ""))))
    by (vm_compute; lia).
  assert (Hp : Forall plainLabel ["Bug Report"; "ui"])
    by (repeat constructor; discriminate).
  exact (labels_box_round_trip 0 ["Bug Report"; "ui"]
           (analyzeWith 2 scenarioService (sessionWith scenarioText "")) Hi Hp).
Defined.

(** X13: an edit touches one record.  Neither edit handler changes the
    number of records, any feedback text, or any record other than the one
    of the edited row; the labels edit keeps every flag and the flag edit
    keeps every label. *)
Theorem edits_touch_one_record (i : nat) (value : string) (checked : bool)
  (st : Session) :
  map feedback (analysisResults (labelsChange i value st))
  = map feedback (analysisResults st)
  /\ map isIncorrect (analysisResults (labelsChange i value st))
     = map isIncorrect (analysisResults st)
  /\ map feedback (analysisResults (incorrectChange i checked st))
     = map feedback (analysisResults st)
  /\ map labels (analysisResults (incorrectChange i checked st))
     = map labels (analysisResults st)
  /\ forall j, j <> i ->
       nth_error (analysisResults (labelsChange i value st)) j
       = nth_error (analysisResults st) j
       /\ nth_error (analysisResults (incorrectChange i checked st)) j
          = nth_error (analysisResults st) j.
Proof.
  rewrite labelsChange_results, incorrectChange_results.
  destruct (Nat.ltb i (length (analysisResults st))).
  - repeat split; try (apply map_updateAt_same; reflexivity);
      now apply nth_error_updateAt_other.
  - repeat split; reflexivity.
Qed.

Lemma edits_touch_one_record_witness :
  nth_error
    (analysisResults
       (labelsChange 0 "x"
          (analyzeWith 2 scenarioService (sessionWith scenarioText "")))) 1
  = nth_error
      (analysisResults (analyzeWith 2 scenarioService (sessionWith scenarioText "")))
      1.
Proof.
  pose proof (edits_touch_one_record 0 "x" true
                (analyzeWith 2 scenarioService (sessionWith scenarioText "")))
    as (_ & _ & _ & _ & H).
  exact (proj1 (H 1 ltac:(discriminate))).
Defined.

(** X14: a flag edit reaches the exports.  After the checkbox of a row
    was set, the compiled view built from the records shows [Yes] for that
    row, and after it was cleared [No]; the view still has one row per
    record. *)
Theorem flag_edit_reaches_exports (i : nat) (checked : bool) (st : Session) :
  i < length (analysisResults st) ->
  nth i (map cIncorrectAnalysis
           (compiledData (analysisResults (incorrectChange i checked st))))
    EmptyString
  = (if checked then "Yes" else "No")
  /\ length (compiledData (analysisResults (incorrectChange i checked st)))
     = length (analysisResults st).
Proof.
  intros Hi. rewrite incorrectChange_results.
  apply Nat.ltb_lt in Hi as Hb. rewrite Hb. unfold compiledData. split.
  - rewrite map_map.
    rewrite (map_updateAt_const (fun x => cIncorrectAnalysis (compiledRow x))
               (if checked then "Yes" else "No")).
    + apply nth_updateAt_const. now rewrite length_map.
    + intros x. destruct checked; reflexivity.
  - now rewrite length_map, updateAt_length.
Qed.

Lemma flag_edit_reaches_exports_witness :
  nth 1 (map cIncorrectAnalysis
           (compiledData
              (analysisResults
                 (incorrectChange 1 true
                    (analyzeWith 2 scenarioService (sessionWith scenarioText ""))))))
    EmptyString
  = "Yes".
Proof.
  assert (Hi : 1 < length (analysisResults
                            (analyzeWith 2 scenarioService
                               (sessionWith scenarioText ""))))
    by (vm_compute; lia).
  exact (proj1 (flag_edit_reaches_exports 1 true
                  (analyzeWith 2 scenarioService (sessionWith scenarioText ""))
                  Hi)).
Defined.

(** ** What the handlers leave on the page *)

Section ViewFacts.

Lemma updateAndRenderStats_frame (st : Session) :
  resultsTable (updateAndRenderStats st) = resultsTable st
  /\ exportDisabled (updateAndRenderStats st) = exportDisabled st
  /\ exportExplodedDisabled (updateAndRenderStats st) = exportExplodedDisabled st
  /\ statusMessage (updateAndRenderStats st) = statusMessage st
  /\ statusError (updateAndRenderStats st) = statusError st
  /\ resultsHeaderHidden (updateAndRenderStats st) = resultsHeaderHidden st.
Proof.
  unfold updateAndRenderStats.
  destruct (Nat.eqb (length (countLabels (analysisResults st))) 0);
    repeat split; reflexivity.
Qed.

Lemma afterLoop_inputs (s : Session) :
  feedbackInput (afterLoop s) = feedbackInput s
  /\ systemPromptInput (afterLoop s) = systemPromptInput s
  /\ downloads (afterLoop s) = downloads s
  /\ statusError (afterLoop s) = statusError s.
Proof.
  unfold afterLoop, updateAndRenderStats, renderResultsTable.
  destruct (Nat.ltb 0 (length (analysisResults s))); [|repeat split; reflexivity].
  destruct (Nat.eqb (length (analysisResults _)) 0);
    destruct (Nat.eqb (length (countLabels _)) 0);
    repeat split; reflexivity.
Qed.

(** The rest of the [try] block when there are records. *)
Lemma afterLoop_view (s : Session) :
  analysisResults s <> [] ->
  resultsTable (afterLoop s) = Table (map tableRow (analysisResults s))
  /\ labelCountsSummary (afterLoop s) = sortedLabels (analysisResults s)
  /\ labelCountsHidden (afterLoop s)
     = Nat.eqb (length (sortedLabels (analysisResults s))) 0
  /\ exportDisabled (afterLoop s) = false
  /\ exportExplodedDisabled (afterLoop s) = false
  /\ resultsHeaderHidden (afterLoop s) = false
  /\ statusMessage (afterLoop s) = completeMessage (length (analysisResults s)).
Proof.
  intros Hne. unfold afterLoop.
  destruct (analysisResults s) as [|r rs] eqn:E; [congruence|].
  cbn [length Nat.ltb Nat.leb].
  set (s1 := set_statusMessage (completeMessage (S (length rs))) s).
  assert (E1 : analysisResults s1 = r :: rs) by exact E.
  assert (R : renderResultsTable s1 =
              set_resultsTable (Table (map tableRow (r :: rs)))
                (set_resultsTable NoTable s1)).
  { unfold renderResultsTable. now rewrite E1. }
  rewrite R.
  set (s2 := set_resultsTable (Table (map tableRow (r :: rs)))
               (set_resultsTable NoTable s1)).
  assert (E2 : analysisResults s2 = r :: rs) by exact E.
  destruct (updateAndRenderStats_summary s2) as (Hs & Hh & _).
  destruct (updateAndRenderStats_frame s2) as (Ht & _ & _ & Hm & _).
  rewrite E2 in Hs, Hh.
  split; [exact Ht|]. split; [exact Hs|]. split; [exact Hh|].
  split; [reflexivity|]. split; [reflexivity|]. split; [reflexivity|].
  exact Hm.
Qed.

Lemma sortedLabels_labels (records records' : list LabeledFeedback) :
  map labels records = map labels records' ->
  sortedLabels records = sortedLabels records'.
Proof.
  intros H. unfold sortedLabels. rewrite !countLabels_tally. do 2 f_equal.
  unfold countedLabels. rewrite !flat_map_concat_map.
  rewrite <- (map_map labels
                (fun ls => filter JS.truthy (map normalizeLabel ls)) records).
  rewrite <- (map_map labels
                (fun ls => filter JS.truthy (map normalizeLabel ls)) records').
  now rewrite H.
Qed.

(** Handlers that write none of the fields the view is read from. *)
Lemma viewInSync_same (st st' : Session) :
  exportDisabled st' = exportDisabled st ->
  exportExplodedDisabled st' = exportExplodedDisabled st ->
  analysisResults st' = analysisResults st ->
  resultsTable st' = resultsTable st ->
  labelCountsSummary st' = labelCountsSummary st ->
  viewInSync st -> viewInSync st'.
Proof.
  unfold viewInSync. intros -> -> -> -> ->. tauto.
Qed.

Lemma viewInSync_labelsChange (i : nat) (value : string) (st : Session) :
  viewInSync st -> viewInSync (labelsChange i value st).
Proof.
  intros (He & Hx & Ht).
  pose proof (labelsChange_results i value st) as Hr.
  unfold labelsChange in *.
  destruct (Nat.ltb i (length (analysisResults st))) eqn:Hi;
    [|split; [exact He | split; [exact Hx | exact Ht]]].
  set (new := updateAt i _ (analysisResults st)) in *.
  set (rows' := match resultsTable st with Table rows => _ | v => v end).
  set (s1 := set_resultsTable rows' (set_analysisResults new st)).
  assert (Hlen : length new = length (analysisResults st))
    by apply updateAt_length.
  assert (Hnew : analysisResults st <> [] -> new <> []).
  { intros Hne Hn. rewrite Hn in Hlen. destruct (analysisResults st);
      [congruence | discriminate]. }
  destruct (updateAndRenderStats_frame s1) as (Ftab & Fe & Fx & _).
  destruct (updateAndRenderStats_summary s1) as (Fsum & _ & Fres).
  fold s1 in Hr. unfold viewInSync. rewrite Fe, Fx, Ftab, Fsum, Fres.
  change (analysisResults s1) with new.
  change (exportDisabled s1) with (exportDisabled st).
  change (exportExplodedDisabled s1) with (exportExplodedDisabled st).
  change (resultsTable s1) with rows'.
  split; [intros H; apply Hnew, He, H|].
  split; [intros H; apply Hnew, Hx, H|].
  intros R HR. subst rows'.
  destruct (resultsTable st) as [| |rows] eqn:ET; try discriminate.
  injection HR as <-. destruct (Ht rows eq_refl) as (H1 & H2 & H3 & _).
  assert (Hf : map feedback new = map feedback (analysisResults st))
    by (apply map_updateAt_same; reflexivity).
  assert (Hg : map flagged new = map flagged (analysisResults st))
    by (apply map_updateAt_same; reflexivity).
  rewrite Hf, Hg.
  rewrite !map_updateAt_same by reflexivity.
  repeat split; assumption.
Qed.

Lemma viewInSync_incorrectChange (i : nat) (checked : bool) (st : Session) :
  viewInSync st -> viewInSync (incorrectChange i checked st).
Proof.
  intros (He & Hx & Ht). unfold incorrectChange.
  destruct (Nat.ltb i (length (analysisResults st))) eqn:Hi;
    [|split; [exact He | split; [exact Hx | exact Ht]]].
  set (new := updateAt i _ (analysisResults st)).
  set (rows' := match resultsTable st with Table rows => _ | v => v end).
  assert (Hlen : length new = length (analysisResults st))
    by apply updateAt_length.
  assert (Hnew : analysisResults st <> [] -> new <> []).
  { intros Hne Hn. rewrite Hn in Hlen. destruct (analysisResults st);
      [congruence | discriminate]. }
  unfold viewInSync.
  change (analysisResults (set_resultsTable rows' (set_analysisResults new st)))
    with new.
  change (exportDisabled (set_resultsTable rows' (set_analysisResults new st)))
    with (exportDisabled st).
  change (exportExplodedDisabled
            (set_resultsTable rows' (set_analysisResults new st)))
    with (exportExplodedDisabled st).
  change (resultsTable (set_resultsTable rows' (set_analysisResults new st)))
    with rows'.
  change (labelCountsSummary (set_resultsTable rows' (set_analysisResults new st)))
    with (labelCountsSummary st).
  split; [intros H; apply Hnew, He, H|].
  split; [intros H; apply Hnew, Hx, H|].
  intros R HR. subst rows'.
  destruct (resultsTable st) as [| |rows] eqn:ET; try discriminate.
  injection HR as <-. destruct (Ht rows eq_refl) as (H1 & H2 & H3 & H4).
  assert (Hf : map feedback new = map feedback (analysisResults st))
    by (apply map_updateAt_same; reflexivity).
  assert (Hl : map labels new = map labels (analysisResults st))
    by (apply map_updateAt_same; reflexivity).
  assert (Hg : map flagged new = updateAt i (fun _ => checked)
                                   (map flagged (analysisResults st)))
    by (apply map_updateAt_const; intros x; destruct checked; reflexivity).
  rewrite Hf, Hg, (sortedLabels_labels new (analysisResults st) Hl).
  rewrite (map_updateAt_same rowFeedback) by reflexivity.
  rewrite (map_updateAt_const rowChecked checked) by reflexivity.
  rewrite (map_updateAt_const rowIncorrectClass checked) by reflexivity.
  rewrite H2, H3. repeat split; assumption.
Qed.

Lemma viewInSync_analyzeWith (batchSize : nat) (ai : Service) (st : Session) :
  viewInSync st -> viewInSync (analyzeWith batchSize ai st).
Proof.
  intros Hinv.
  destruct (JS.truthy (JS.trim (feedbackInput st))) eqn:Hin;
    [|now rewrite analyze_empty_input].
  rewrite (analyzeWith_run batchSize ai st Hin).
  destruct (batchLoop_outcome ai batchSize
              (ceilDiv (length (feedbackLinesOf (JS.trim (feedbackInput st))))
                 batchSize)
              (feedbackLinesOf (JS.trim (feedbackInput st)))
              (JS.trim (systemPromptInput st))
              (ceilDiv (length (feedbackLinesOf (JS.trim (feedbackInput st))))
                 batchSize) 0 (uiReset st)) as (_ & _ & _ & Hf).
  destruct (batchLoop _ _ _ _ _ _ _ _) as [s | s]; cbn [completionState] in Hf;
    destruct Hf as (_ & _ & _ & Htab & _ & He & Hx & _).
  - destruct (analysisResults s) as [|r rs] eqn:E.
    + unfold afterLoop. rewrite E. cbn [length Nat.ltb Nat.leb].
      split; [intros H; cbn in H; rewrite He in H; discriminate|].
      split; [intros H; cbn in H; rewrite Hx in H; discriminate|].
      intros rows H. cbn in H. rewrite Htab in H. discriminate.
    + assert (Hne : analysisResults s <> []) by (rewrite E; discriminate).
      destruct (afterLoop_view s Hne) as (Vt & Vs & _).
      pose proof (proj1 (afterLoop_results s)) as Vr.
      unfold viewInSync.
      change (analysisResults (onFinally (afterLoop s)))
        with (analysisResults (afterLoop s)).
      change (resultsTable (onFinally (afterLoop s)))
        with (resultsTable (afterLoop s)).
      change (labelCountsSummary (onFinally (afterLoop s)))
        with (labelCountsSummary (afterLoop s)).
      rewrite Vr, Vt, Vs.
      split; [intros _; exact Hne|]. split; [intros _; exact Hne|].
      intros rows H. injection H as <-. rewrite !map_map.
      repeat split; reflexivity.
  - split; [intros H; cbn in H; rewrite He in H; discriminate|].
    split; [intros H; cbn in H; rewrite Hx in H; discriminate|].
    intros rows H. discriminate.
Qed.

End ViewFacts.

(** X15: what is shown stays in step with the records.  If an enabled
    export button means there are records, and a rendered table has one row
    per record with the record's feedback and flag beside the label counts of
    the records, then the same holds after every handler: the analyze click
    (whatever the service replies), an edit of a row's labels, an edit of a
    row's flag, either export click, and [checkInputs]. *)
Theorem handlers_keep_view_in_sync (st : Session) (batchSize : nat) (ai : Service)
  (i : nat) (value : string) (checked : bool) :
  viewInSync st ->
  viewInSync (analyzeWith batchSize ai st)
  /\ viewInSync (labelsChange i value st)
  /\ viewInSync (incorrectChange i checked st)
  /\ viewInSync (exportClick st)
  /\ viewInSync (exportExplodedClick st)
  /\ viewInSync (checkInputs st).
Proof.
  intros H.
  split; [now apply viewInSync_analyzeWith|].
  split; [now apply viewInSync_labelsChange|].
  split; [now apply viewInSync_incorrectChange|].
  split; [|split].
  - unfold exportClick. destruct (Nat.ltb 0 (length (analysisResults st)));
      [|exact H]. now apply (viewInSync_same st).
  - unfold exportExplodedClick.
    destruct (Nat.ltb 0 (length (analysisResults st))); [|exact H].
    now apply (viewInSync_same st).
  - now apply (viewInSync_same st).
Qed.

Lemma handlers_keep_view_in_sync_witness :
  viewInSync (analyzeWith 2 scenarioService (sessionWith scenarioText "")).
Proof.
  assert (H : viewInSync (sessionWith scenarioText "")).
  { split; [discriminate|]. split; [discriminate|]. intros rows Hr. discriminate. }
  exact (proj1 (handlers_keep_view_in_sync (sessionWith scenarioText "") 2
                  scenarioService 0 "" true H)).
Defined.

(** X16: the analyze button is never left locked.  Whatever the service
    replies, when a run over a non-blank text returns the spinner is hidden
    and the analyze button is enabled again; the run has changed neither
    input box and has downloaded nothing. *)
Theorem run_releases_page (batchSize : nat) (ai : Service) (st : Session) :
  JS.truthy (JS.trim (feedbackInput st)) = true ->
  loadingSpinnerHidden (analyzeWith batchSize ai st) = true
  /\ analyzeDisabled (analyzeWith batchSize ai st) = false
  /\ feedbackInput (analyzeWith batchSize ai st) = feedbackInput st
  /\ systemPromptInput (analyzeWith batchSize ai st) = systemPromptInput st
  /\ downloads (analyzeWith batchSize ai st) = downloads st.
Proof.
  intros Hin. rewrite (analyzeWith_run batchSize ai st Hin).
  destruct (batchLoop_outcome ai batchSize
              (ceilDiv (length (feedbackLinesOf (JS.trim (feedbackInput st))))
                 batchSize)
              (feedbackLinesOf (JS.trim (feedbackInput st)))
              (JS.trim (systemPromptInput st))
              (ceilDiv (length (feedbackLinesOf (JS.trim (feedbackInput st))))
                 batchSize) 0 (uiReset st)) as (_ & _ & _ & Hf).
  destruct (batchLoop _ _ _ _ _ _ _ _) as [s | s]; cbn [completionState] in Hf;
    destruct Hf as (Hi & Hp & _ & _ & _ & _ & _ & _ & _ & _ & _ & Hd);
    change (feedbackInput (uiReset st)) with (feedbackInput st) in Hi;
    change (systemPromptInput (uiReset st)) with (systemPromptInput st) in Hp;
    change (downloads (uiReset st)) with (downloads st) in Hd.
  - destruct (afterLoop_inputs s) as (Ai & Ap & Ad & _).
    unfold onFinally, checkInputs.
    change (feedbackInput (set_loadingSpinnerHidden true (afterLoop s)))
      with (feedbackInput (afterLoop s)).
    rewrite Ai, Hi, Hin.
    repeat split; try reflexivity; cbn; congruence.
  - unfold onFinally, checkInputs.
    change (feedbackInput (set_loadingSpinnerHidden true (onError s)))
      with (feedbackInput s).
    rewrite Hi, Hin.
    repeat split; try reflexivity; cbn; congruence.
Qed.

Lemma run_releases_page_witness :
  analyzeDisabled (analyzeWith 2 failingService (sessionWith scenarioText ""))
  = false.
Proof.
  exact (proj1 (proj2 (run_releases_page 2 failingService
                         (sessionWith scenarioText "") eq_refl))).
Defined.

(** X17: a run that succeeds with records.  When no call fails and some
    record came back, the status reports the number of records (not of
    lines), without the error class; the table has one row per record, with
    its feedback, its labels joined by a comma and a space, and an unchecked
    box; the header is shown, both exports are enabled, and the label counts
    are those of the records, hidden only when there is none. *)
Theorem successful_run_view (batchSize : nat) (ai : Service) (st : Session) :
  JS.truthy (JS.trim (feedbackInput st)) = true ->
  allSucceed (runReply batchSize ai st) (runTotal batchSize st) ->
  analysisResults (analyzeWith batchSize ai st) <> [] ->
  statusMessage (analyzeWith batchSize ai st)
  = completeMessage (length (analysisResults (analyzeWith batchSize ai st)))
  /\ statusError (analyzeWith batchSize ai st) = false
  /\ resultsTable (analyzeWith batchSize ai st)
     = Table (map (fun item =>
                     mkTableRow (feedback item) (JS.join ", " (labels item))
                       false false)
                (analysisResults (analyzeWith batchSize ai st)))
  /\ resultsHeaderHidden (analyzeWith batchSize ai st) = false
  /\ exportDisabled (analyzeWith batchSize ai st) = false
  /\ exportExplodedDisabled (analyzeWith batchSize ai st) = false
  /\ labelCountsSummary (analyzeWith batchSize ai st)
     = sortedLabels (analysisResults (analyzeWith batchSize ai st))
  /\ labelCountsHidden (analyzeWith batchSize ai st)
     = Nat.eqb (length (sortedLabels (analysisResults (analyzeWith batchSize ai st))))
         0.
Proof.
  intros Hin Hall Hne.
  pose proof (analyze_results_unflagged batchSize ai st Hin) as Hflags.
  destruct (analyzeWith_normal batchSize ai st Hin) as (s & _ & Hf & Hrun).
  { cbv zeta. apply (allSucceed_leading _ _ Hall). }
  rewrite Hrun in *.
  change (analysisResults (onFinally (afterLoop s)))
    with (analysisResults (afterLoop s)) in *.
  rewrite (proj1 (afterLoop_results s)) in *.
  destruct (afterLoop_view s Hne) as (Vt & Vs & Vh & Ve & Vx & Vr & Vm).
  destruct (afterLoop_inputs s) as (_ & _ & _ & Verr).
  destruct Hf as (_ & _ & He & _).
  split; [exact Vm|]. split; [cbn; rewrite Verr; exact He|].
  split.
  - change (resultsTable (onFinally (afterLoop s)))
      with (resultsTable (afterLoop s)).
    rewrite Vt. f_equal. apply map_ext_in. intros item Hitem.
    rewrite Forall_forall in Hflags. specialize (Hflags item Hitem).
    unfold tableRow, flagged. now rewrite Hflags.
  - split; [exact Vr|]. split; [exact Ve|]. split; [exact Vx|].
    split; [exact Vs | exact Vh].
Qed.

Lemma successful_run_view_witness :
  exportDisabled (analyzeWith 2 scenarioService (sessionWith scenarioText ""))
  = false.
Proof.
  assert (Hall : allSucceed
                   (runReply 2 scenarioService (sessionWith scenarioText ""))
                   (runTotal 2 (sessionWith scenarioText ""))).
  { intros i Hi. assert (Hi' : i < 2) by exact Hi.
    destruct i as [|[|i]]; [reflexivity | reflexivity | lia]. }
  assert (Hne : analysisResults
                  (analyzeWith 2 scenarioService (sessionWith scenarioText ""))
                <> []) by (vm_compute; discriminate).
  pose proof (successful_run_view 2 scenarioService (sessionWith scenarioText "")
                eq_refl Hall Hne) as H.
  exact (proj1 (proj2 (proj2 (proj2 (proj2 H))))).
Defined.

(** X18: every run starts afresh.  The records a run leaves depend only
    on the two input boxes and on the replies: records of an earlier run, and
    edits made to them, never survive a run over a non-blank text; and each
    record the run leaves carries the flag [false]. *)
Theorem run_results_fresh (batchSize : nat) (ai : Service) (st st' : Session) :
  JS.truthy (JS.trim (feedbackInput st)) = true ->
  feedbackInput st' = feedbackInput st ->
  systemPromptInput st' = systemPromptInput st ->
  analysisResults (analyzeWith batchSize ai st')
  = analysisResults (analyzeWith batchSize ai st)
  /\ Forall (fun r => isIncorrect r = Some false)
       (analysisResults (analyzeWith batchSize ai st)).
Proof.
  intros Hin Hf Hp.
  assert (Hin' : JS.truthy (JS.trim (feedbackInput st')) = true)
    by now rewrite Hf.
  split; [|now apply analyze_results_unflagged].
  rewrite (analyzeWith_results batchSize ai st Hin).
  rewrite (analyzeWith_results batchSize ai st' Hin').
  cbv zeta. now rewrite Hf, Hp.
Qed.

Lemma run_results_fresh_witness :
  analysisResults
    (analyzeWith 2 scenarioService
       (labelsChange 0 "x"
          (analyzeWith 2 scenarioService (sessionWith scenarioText ""))))
  = analysisResults (analyzeWith 2 scenarioService (sessionWith scenarioText "")).
Proof.
  exact (proj1 (run_results_fresh 2 scenarioService
                  (sessionWith scenarioText "")
                  (labelsChange 0 "x"
                     (analyzeWith 2 scenarioService (sessionWith scenarioText "")))
                  eq_refl eq_refl eq_refl)).
Defined.

(** ** What is sent to the service *)

Section RequestFacts.

Import JS.

Lemma split_join (c : list string) :
  c <> [] -> Forall (fun l => includesChar LF l = false) c ->
  split LF (join nl c) = c.
Proof.
  induction c as [|x r IH]; intros Hne H; [congruence|].
  inversion H as [|? ? Hx Hr]; subst.
  destruct r as [|y r]; [now apply split_no_sep|].
  rewrite join_cons2.
  change (nl ++ join nl (y :: r))%string with (String LF (join nl (y :: r))).
  rewrite split_app, (split_no_sep LF x Hx), IH by (discriminate || assumption).
  reflexivity.
Qed.

Lemma Forall_firstn {A : Type} (P : A -> Prop) (n : nat) (l : list A) :
  Forall P l -> Forall P (firstn n l).
Proof.
  intros H. revert n. induction H as [|x l Hx Hl IH]; intros [|n]; cbn;
    constructor; auto.
Qed.

Lemma Forall_skipn {A : Type} (P : A -> Prop) (n : nat) (l : list A) :
  Forall P l -> Forall P (skipn n l).
Proof.
  intros H. revert n. induction H as [|x l Hx Hl IH]; intros [|n]; cbn;
    try constructor; auto.
Qed.

Lemma batchLinesAt_Forall (P : string -> Prop) (batchSize : nat)
  (lines : list string) (i : nat) :
  Forall P lines -> Forall P (batchLinesAt batchSize lines i).
Proof.
  intros H. unfold batchLinesAt, slice. now apply Forall_firstn, Forall_skipn.
Qed.

End RequestFacts.

(** X19: the text of a batch can be taken apart again.  Because no line
    of the feedback holds a line feed, splitting the text sent for a chunk at
    the line feeds gives back exactly the lines of the chunk: joining neither
    merges nor splits lines. *)
Theorem batch_text_round_trip (batchSize : nat) (text : string)
  (chunk : list string) :
  0 < batchSize ->
  In chunk (batches batchSize (feedbackLinesOf text)) ->
  JS.split JS.LF (JS.join JS.nl chunk) = chunk
  /\ feedbackLinesOf (JS.join JS.nl chunk) = chunk.
Proof.
  intros HB Hin.
  pose proof (batches_sizes batchSize HB (feedbackLinesOf text)) as Hs.
  rewrite Forall_forall in Hs. specialize (Hs chunk Hin).
  assert (Hclean : Forall (fun line => JS.truthy (JS.trim line) = true
                                       /\ includesChar JS.LF line = false) chunk).
  { unfold batches in Hin. apply in_map_iff in Hin. destruct Hin as [i [<- _]].
    apply batchLinesAt_Forall.
    apply Forall_forall. intros l Hl. unfold feedbackLinesOf in Hl.
    apply filter_In in Hl. destruct Hl as [Hsp Ht]. split; [exact Ht|].
    pose proof (split_pieces_free JS.LF text) as Hfree.
    rewrite Forall_forall in Hfree. now apply Hfree. }
  split.
  - apply split_join.
    + intros ->. cbn in Hs. lia.
    + eapply Forall_impl; [|exact Hclean]. cbn. tauto.
  - apply feedbackLinesOf_join.
    eapply Forall_impl; [|exact Hclean]. cbn. tauto.
Qed.

Lemma batch_text_round_trip_witness :
  JS.split JS.LF (JS.join JS.nl ["Great app!"; "Crashes on load"])
  = ["Great app!"; "Crashes on load"].
Proof.
  refine (proj1 (batch_text_round_trip 2 scenarioText
                   ["Great app!"; "Crashes on load"] _ _)).
  - lia.
  - left. reflexivity.
Defined.

(** X20: what every request of a run carries.  The requests a run adds to
    the log all name the same model and the same system instruction: the
    trimmed system prompt, or none at all when the prompt box holds nothing
    but white space; and the contents of each is the prompt header followed
    by the lines of one of the batches of the run, joined with line feeds. *)
Theorem requests_carry_prompt (batchSize : nat) (ai : Service) (st : Session) :
  JS.truthy (JS.trim (feedbackInput st)) = true ->
  exists sent,
    calls (analyzeWith batchSize ai st) = calls st ++ sent
    /\ length sent <= runTotal batchSize st
    /\ Forall (fun r =>
                 model r = "gemini-2.5-flash"
                 /\ systemInstruction r
                    = (if allWhiteSpace (systemPromptInput st) then None
                       else Some (JS.trim (systemPromptInput st)))
                 /\ exists i,
                      i < runTotal batchSize st
                      /\ In (batchLinesAt batchSize (runLines st) i)
                           (batches batchSize (runLines st))
                      /\ contents r
                         = (promptHeader
                            ++ JS.join JS.nl
                                 (batchLinesAt batchSize (runLines st) i))%string)
         sent.
Proof.
  intros Hin. rewrite (analyzeWith_calls batchSize ai st Hin). cbv zeta.
  fold (runLines st). fold (runPrompt st). fold (runTotal batchSize st).
  set (k := leadingSuccesses _ _ 0).
  assert (Hk : k <= runTotal batchSize st) by apply leadingSuccesses_le.
  set (m := if Nat.ltb k (runTotal batchSize st) then S k else k).
  assert (Hm : m <= runTotal batchSize st).
  { subst m. destruct (Nat.ltb k (runTotal batchSize st)) eqn:E; [|exact Hk].
    apply Nat.ltb_lt in E. lia. }
  eexists. split; [reflexivity|].
  split; [now rewrite length_map, length_seq|].
  apply Forall_forall. intros r Hr. apply in_map_iff in Hr.
  destruct Hr as [i [<- Hi]]. apply in_seq in Hi.
  unfold requestAt, requestFor. cbn [model systemInstruction contents].
  split; [reflexivity|]. split.
  - unfold systemInstructionOf, runPrompt. rewrite truthy_trim.
    now destruct (allWhiteSpace (systemPromptInput st)).
  - exists i. split; [lia|]. split; [|reflexivity].
    unfold batches. apply in_map. apply in_seq.
    fold (runTotal batchSize st). lia.
Qed.

Lemma requests_carry_prompt_witness :
  exists sent,
    calls (analyzeWith 2 scenarioService (sessionWith scenarioText "  "))
    = calls (sessionWith scenarioText "  ") ++ sent
    /\ length sent <= runTotal 2 (sessionWith scenarioText "  ").
Proof.
  destruct (requests_carry_prompt 2 scenarioService
              (sessionWith scenarioText "  ") eq_refl) as (sent & H1 & H2 & _).
  exists sent. split; assumption.
Defined.
